(** * An in-memory e-Library: books, loans and the four HTTP handlers

    Shallow embedding of [main.go].  The program keeps one [Library] value
    (two Go maps behind a [sync.RWMutex]) and serves four handlers.  Every
    handler takes the lock before it touches the maps and releases it when
    it returns, so a handler is one atomic transition of the store; the
    embedding is therefore sequential: a handler is a function from the
    store (and the request) to the new store and the HTTP response.

    Layout: Go's [int], [time.Time], the records, the HTTP vocabulary, the
    critical sections of the four handlers ([Lookup], [Borrow], [Extend],
    [Return]), the handlers themselves, then the lemmas and theorems. *)

From Stdlib Require Import ZArith String List Lia Permutation.
From stdpp Require Import base gmap strings list fin_maps.

Local Open Scope string_scope.
Local Open Scope Z_scope.

(** ** Go's [int]

    [AvailableCopies] is a Go [int]: 64 bits wide on the usual targets,
    two's complement, and [++] / [--] wrap around silently. *)

Definition intSize : Z := 64.
Definition maxInt : Z := 2 ^ (intSize - 1) - 1.
Definition minInt : Z := - 2 ^ (intSize - 1).

(** The value an [int] holds after an arithmetic result [z]. *)
Definition wrapInt (z : Z) : Z :=
  (z + 2 ^ (intSize - 1)) mod 2 ^ intSize - 2 ^ (intSize - 1).

(** The integers a Go [int] can hold. *)
Definition isInt (z : Z) : Prop := minInt <= z <= maxInt.

(** ** [time.Time]

    A [Time] is an instant, in seconds and nanoseconds since the Unix
    epoch, together with the [Location] its clock reading is taken in.
    The monotonic reading that [time.Now()] attaches and the overflow of
    the 64-bit second count are left out.

    A [Location] is as the time package keeps it: the zone in force before
    the first transition, then the transitions in increasing order of
    their instant, each with the zone it starts.  A recurring rule (the
    [extend] string) is taken as written out into its transitions.  A
    zone's offset from UTC is less than a day, as in the time zone
    database and as RFC 3339 can print. *)

Definition secondsPerDay : Z := 86400.
Definition alpha : Z := - 2 ^ 63.
Definition omega : Z := 2 ^ 63 - 1.

Record Zone : Type := mkZone {
  zoneOffset : Z;
  zoneOffset_day :
    Is_true (bool_decide (- secondsPerDay < zoneOffset < secondsPerDay))
}.

Record Location : Type := mkLocation {
  firstZone : Zone;
  transitions : list (Z * Zone)
}.

Definition utcZone : Zone := mkZone 0 I.
Definition UTC : Location := {| firstZone := utcZone; transitions := [] |}.

Record Time : Type := mkTime { unixSec : Z; nsec : Z; location : Location }.

(** [l.lookup(sec)]: the zone in force at [sec] and the instants between
    which it is. *)
Fixpoint lookupFrom (current : Zone) (start : Z) (tx : list (Z * Zone))
    (sec : Z) : Zone * Z * Z :=
  match tx with
  | [] => (current, start, omega)
  | (when, next) :: later =>
      if sec <? when then (current, start, when)
      else lookupFrom next when later sec
  end.

Definition lookup (l : Location) (sec : Z) : Zone * Z * Z :=
  lookupFrom (firstZone l) alpha (transitions l) sec.

Definition offsetAt (l : Location) (sec : Z) : Z :=
  zoneOffset (lookup l sec).1.1.

(** The clock reading of [t] in its location, in seconds: what [t.Date()]
    and [t.Clock()] are computed from. *)
Definition wallSec (t : Time) : Z :=
  unixSec t + offsetAt (location t) (unixSec t).

(** The end of [time.Date]: from a clock reading to the instant.  The
    reading is first looked up as if it were an instant; when the instant
    that the zone found gives lies outside that zone's span, the offset is
    looked up again at that instant. *)
Definition unixOfWall (l : Location) (wall : Z) : Z :=
  let found := lookup l wall in
  let offset := zoneOffset found.1.1 in
  if offset =? 0 then wall
  else
    let utc := wall - offset in
    let offset' :=
      if (utc <? found.1.2) || (found.2 <=? utc) then offsetAt l utc
      else offset in
    wall - offset'.

(** [t.AddDate(0, 0, days)]: [time.Date] on the date and clock of [t] with
    the day moved by [days], in the location of [t]. *)
Definition AddDays (t : Time) (days : Z) : Time :=
  {| unixSec := unixOfWall (location t) (wallSec t + secondsPerDay * days);
     nsec := nsec t;
     location := location t |}.

(** [t.MarshalJSON()] succeeds for the years 0 to 9999 of the clock
    reading: from 0000-01-01T00:00:00 up to 10000-01-01T00:00:00. *)
Definition yearZero : Z := -62167219200.
Definition yearTenThousand : Z := 253402300800.

Definition MarshalJSON_ok (t : Time) : bool :=
  (yearZero <=? wallSec t) && (wallSec t <? yearTenThousand).

(** All zones of the location have one offset. *)
Definition fixedOffset (l : Location) : Prop :=
  Forall (fun tr => zoneOffset tr.2 = zoneOffset (firstZone l)) (transitions l).

(** No clock change of the location lies within a day of the reading. *)
Definition quietAround (l : Location) (wall : Z) : Prop :=
  Forall (fun tr => tr.1 <= wall - secondsPerDay \/ wall + secondsPerDay <= tr.1)
         (transitions l).

(** Two readings of "[t'] is [t] plus [days] days": [days] times 24 hours
    have elapsed; the clock shows the same time of day [days] calendar
    days on. *)
Definition daysLater (days : Z) (t t' : Time) : Prop :=
  unixSec t' = unixSec t + secondsPerDay * days.

Definition civilDaysLater (days : Z) (t t' : Time) : Prop :=
  wallSec t' = wallSec t + secondsPerDay * days.

(** ** The records of the store *)

Record BookDetail : Type := mkBook {
  Title : string;
  AvailableCopies : Z
}.

Record LoanDetail : Type := mkLoan {
  BookTitle : string;
  NameOfBorrower : string;
  LoanDate : Time;
  ReturnDate : Time
}.

(** The [mutex] field has no counterpart: it is what makes each handler
    atomic.  A key of [Loans] bound to an empty slice is different from an
    absent key, as in Go. *)
Record Library : Type := mkLibrary {
  Books : gmap string BookDetail;
  Loans : gmap string (list LoanDetail)
}.

Definition NewLibrary : Library :=
  {| Books :=
       <["Clean Code" := {| Title := "Clean Code"; AvailableCopies := 2 |}]>
       (<["Go Programming" :=
            {| Title := "Go Programming"; AvailableCopies := 3 |}]> ∅);
     Loans := ∅ |}.

(** ** HTTP vocabulary *)

Definition StatusOK : Z := 200.
Definition StatusCreated : Z := 201.
Definition StatusBadRequest : Z := 400.
Definition StatusNotFound : Z := 404.
Definition StatusMethodNotAllowed : Z := 405.
Definition StatusConflict : Z := 409.

Definition MethodGet : string := "GET".
Definition MethodPost : string := "POST".

(** What a handler hands to the response writer: the value it gives to
    [json.NewEncoder(w).Encode] (a book, a loan or a one-entry message
    object), or the plain text it gives to [http.Error].  [GoPanic]
    stands for a run-time panic (index out of range).  What the client
    receives of it is [Encode] below. *)
Inductive Body : Type :=
  | JsonBook (b : BookDetail)
  | JsonLoan (l : LoanDetail)
  | JsonMessage (message : string)
  | ErrorText (msg : string)
  | GoPanic.

Record Response : Type := mkResponse { Status : Z; Payload : Body }.

(** [http.Error(w, msg, code)]. *)
Definition http_Error (msg : string) (code : Z) : Response :=
  {| Status := code; Payload := ErrorText msg |}.

Definition runtimePanic : Response := {| Status := 500; Payload := GoPanic |}.

(** What reaches the client.  [Encode] writes nothing when it fails, and
    the handlers drop its error: a loan one of whose dates cannot be
    marshalled leaves the body empty under the status already chosen. *)
Inductive Written : Type :=
  | SentBook (b : BookDetail)
  | SentLoan (l : LoanDetail)
  | SentMessage (message : string)
  | SentText (msg : string)
  | SentNothing
  | Aborted.

Definition Encode (body : Body) : Written :=
  match body with
  | JsonBook b => SentBook b
  | JsonLoan loan =>
      if MarshalJSON_ok (LoanDate loan) && MarshalJSON_ok (ReturnDate loan)
      then SentLoan loan
      else SentNothing
  | JsonMessage message => SentMessage message
  | ErrorText msg => SentText msg
  | GoPanic => Aborted
  end.

(** The status and the body the client receives for a response. *)
Definition written (r : Response) : Z * Written :=
  (Status r, Encode (Payload r)).


(** The failures of the store, by the names of the error taxonomy. *)
Definition errBookNotFound : Response :=
  http_Error "Book not found" StatusNotFound.
Definition errNoLoansForBook : Response :=
  http_Error "No loans found for this book" StatusNotFound.
Definition errNoLoanForBorrower : Response :=
  http_Error "No loan found for this borrower" StatusNotFound.
Definition errNoCopiesAvailable : Response :=
  http_Error "No copies available" StatusConflict.

(** A title-level NotFound is either of the two 404 answers that speak
    about the book; the borrower-level NotFound is the third 404. *)
Definition NotFoundTitle (r : Response) : Prop :=
  r = errBookNotFound \/ r = errNoLoansForBook.
Definition NotFoundBorrowerLoan (r : Response) : Prop :=
  r = errNoLoanForBorrower.

(** The decoded request: the method, the [title] query parameter (empty
    when missing) and the outcome of decoding the JSON body into the
    anonymous [request] struct ([None] when decoding fails). *)
Record LoanRequest : Type := mkLoanRequest {
  request_Title : string;
  request_Borrower : string
}.

Record Request : Type := mkRequest {
  Method : string;
  QueryTitle : string;
  DecodedBody : option LoanRequest
}.

(** ** The critical sections

    Each definition below is the part of a handler that runs with the lock
    held, from the first map access to the response.  The response is the
    status and what is handed to the writer; [written] tells what the
    client receives of it. *)

(** [getBookHandler], under [RLock]. *)
Definition Lookup (l : Library) (title : string) : Library * Response :=
  match Books l !! title with
  | None => (l, errBookNotFound)
  | Some book => (l, {| Status := StatusOK; Payload := JsonBook book |})
  end.

(** [borrowBookHandler], under [Lock]; [now] is the value of [time.Now()].
    [append] on the slice of an absent key appends to the nil slice. *)
Definition Borrow (l : Library) (now : Time) (title borrower : string)
  : Library * Response :=
  match Books l !! title with
  | None => (l, errBookNotFound)
  | Some book =>
      if AvailableCopies book <=? 0 then (l, errNoCopiesAvailable)
      else
        let book' := {| Title := Title book;
                        AvailableCopies := wrapInt (AvailableCopies book - 1) |} in
        let loan := {| BookTitle := title;
                       NameOfBorrower := borrower;
                       LoanDate := now;
                       ReturnDate := AddDays now 28 |} in
        ({| Books := <[title := book']> (Books l);
            Loans := <[title := (default [] (Loans l !! title) ++ [loan])%list]> (Loans l) |},
         {| Status := StatusCreated; Payload := JsonLoan loan |})
  end.

(** [loans[i].ReturnDate = loan.ReturnDate.AddDate(0, 0, 21)], where [loan]
    is the copy of [loans[i]] made by [range]. *)
Definition extended (loan : LoanDetail) : LoanDetail :=
  {| BookTitle := BookTitle loan;
     NameOfBorrower := NameOfBorrower loan;
     LoanDate := LoanDate loan;
     ReturnDate := AddDays (ReturnDate loan) 21 |}.

(** The [for i, loan := range loans] loop of [extendLoanHandler]: [rest] is
    what remains to be visited, [i] the index of its head.  [None] is
    [loanFound = false]; otherwise the slice after the assignment and
    [extendedLoan]. *)
Fixpoint extendLoop (borrower : string) (loans : list LoanDetail) (i : nat)
    (rest : list LoanDetail) : option (list LoanDetail * LoanDetail) :=
  match rest with
  | [] => None
  | loan :: rest' =>
      if bool_decide (NameOfBorrower loan = borrower)
      then Some (<[i := extended loan]> loans, extended loan)
      else extendLoop borrower loans (S i) rest'
  end.

(** [extendLoanHandler], under [Lock]. *)
Definition Extend (l : Library) (title borrower : string) : Library * Response :=
  match Loans l !! title with
  | None => (l, errNoLoansForBook)
  | Some loans =>
      match extendLoop borrower loans 0 loans with
      | None => (l, errNoLoanForBorrower)
      | Some (loans', extendedLoan) =>
          ({| Books := Books l; Loans := <[title := loans']> (Loans l) |},
           {| Status := StatusOK; Payload := JsonLoan extendedLoan |})
      end
  end.

(** The search loop of [returnBookHandler]; the result is [loanIndex],
    which starts at [-1]. *)
Fixpoint scanLoanIndex (borrower : string) (rest : list LoanDetail) (i : Z) : Z :=
  match rest with
  | [] => -1
  | loan :: rest' =>
      if bool_decide (NameOfBorrower loan = borrower) then i
      else scanLoanIndex borrower rest' (i + 1)
  end.

(** [fmt.Sprintf("Book '%s' successfully returned by %s", title, borrower)]. *)
Definition returnedMessage (title borrower : string) : string :=
  String.append "Book '"
    (String.append title
       (String.append "' successfully returned by " borrower)).

(** [returnBookHandler], under [Lock].  The removal overwrites the found
    entry with the last one and drops the last position. *)
Definition Return (l : Library) (title borrower : string) : Library * Response :=
  match Loans l !! title with
  | None => (l, errNoLoansForBook)
  | Some loans =>
      match Books l !! title with
      | None => (l, errBookNotFound)
      | Some book =>
          let loanIndex := scanLoanIndex borrower loans 0 in
          if loanIndex =? -1 then (l, errNoLoanForBorrower)
          else
            match loans !! (length loans - 1)%nat with
            | None => (l, runtimePanic)
            | Some lastLoan =>
                let loans' := <[Z.to_nat loanIndex := lastLoan]> loans in
                let book' := {| Title := Title book;
                                AvailableCopies := wrapInt (AvailableCopies book + 1) |} in
                ({| Books := <[title := book']> (Books l);
                    Loans := <[title := take (length loans - 1)%nat loans']> (Loans l) |},
                 {| Status := StatusOK;
                    Payload := JsonMessage (returnedMessage title borrower) |})
            end
      end
  end.

(** ** The handlers *)

Definition getBookHandler (l : Library) (r : Request) : Library * Response :=
  if negb (String.eqb (Method r) MethodGet)
  then (l, http_Error "Method not allowed" StatusMethodNotAllowed)
  else
    let title := QueryTitle r in
    if String.eqb title ""
    then (l, http_Error "Title query parameter is required" StatusBadRequest)
    else Lookup l title.

(** The three POST handlers share their prologue. *)
Definition postHandler (l : Library) (r : Request)
    (critical : string -> string -> Library * Response) : Library * Response :=
  if negb (String.eqb (Method r) MethodPost)
  then (l, http_Error "Method not allowed" StatusMethodNotAllowed)
  else
    match DecodedBody r with
    | None => (l, http_Error "Invalid request body" StatusBadRequest)
    | Some request =>
        if String.eqb (request_Title request) ""
           || String.eqb (request_Borrower request) ""
        then (l, http_Error "Title and borrower are required" StatusBadRequest)
        else critical (request_Title request) (request_Borrower request)
    end.

Definition borrowBookHandler (l : Library) (now : Time) (r : Request)
  : Library * Response := postHandler l r (Borrow l now).

Definition extendLoanHandler (l : Library) (r : Request)
  : Library * Response := postHandler l r (Extend l).

Definition returnBookHandler (l : Library) (r : Request)
  : Library * Response := postHandler l r (Return l).

(** ** One step of the store *)

Inductive Op : Type :=
  | OpLookup (title : string)
  | OpBorrow (now : Time) (title borrower : string)
  | OpExtend (title borrower : string)
  | OpReturn (title borrower : string).

Definition step (l : Library) (o : Op) : Library * Response :=
  match o with
  | OpLookup title => Lookup l title
  | OpBorrow now title borrower => Borrow l now title borrower
  | OpExtend title borrower => Extend l title borrower
  | OpReturn title borrower => Return l title borrower
  end.

(** ** Vocabulary of the statements *)

(** Every count in the catalog is a non-negative [int]. *)
Definition copiesNonNegative (l : Library) : Prop :=
  map_Forall (fun _ book => 0 <= AvailableCopies book <= maxInt) (Books l).

(** The invariant as the specification words it: no count is negative. *)
Definition copiesAtLeastZero (l : Library) : Prop :=
  map_Forall (fun _ book => 0 <= AvailableCopies book) (Books l).

(** The loans recorded for a title; none when the key is absent. *)
Definition loansOf (l : Library) (title : string) : list LoanDetail :=
  default [] (Loans l !! title).

(** [loan] sits at index [i] of [loans], carries [borrower]'s name, and no
    earlier entry does. *)
Definition firstMatch (borrower : string) (loans : list LoanDetail)
    (i : nat) (loan : LoanDetail) : Prop :=
  loans !! i = Some loan /\
  NameOfBorrower loan = borrower /\
  forall j other, (j < i)%nat -> loans !! j = Some other ->
                  NameOfBorrower other <> borrower.

Definition noMatch (borrower : string) (loans : list LoanDetail) : Prop :=
  forall other, other ∈ loans -> NameOfBorrower other <> borrower.

(** The store after a sequence of operations. *)
Fixpoint run (l : Library) (ops : list Op) : Library :=
  match ops with
  | [] => l
  | o :: ops' => run (step l o).1 ops'
  end.

(** Every count is non-negative and, added to the number of loans recorded
    under its title, still fits an [int]. *)
Definition ledgerFits (l : Library) : Prop :=
  map_Forall
    (fun title book =>
       0 <= AvailableCopies book
       /\ AvailableCopies book + Z.of_nat (length (loansOf l title)) <= maxInt)
    (Books l).

(** ** Sample stores

    [sampleLibrary] has a borrower holding two loans of one title;
    [soldOutLibrary] and [orphanLibrary] are the stores the tests of the
    repository seed by hand (a title with no copy left; loans under a title
    that the catalog does not have); [emptiedLibrary] is the seeded store after
    a borrow and the matching return, which leave the title's loan list
    present but empty;
    [fullLibrary] has a count at the top of the [int] range. *)

Definition sampleDay : Time :=
  {| unixSec := 1728043200; nsec := 0; location := UTC |}.

Definition sampleLoan (title borrower : string) (since : Z) : LoanDetail :=
  {| BookTitle := title;
     NameOfBorrower := borrower;
     LoanDate := AddDays sampleDay since;
     ReturnDate := AddDays (AddDays sampleDay since) 28 |}.

Definition sampleLoans : list LoanDetail :=
  [ sampleLoan "Go Programming" "Alice" 0;
    sampleLoan "Go Programming" "John" 1;
    sampleLoan "Go Programming" "John" 5;
    sampleLoan "Go Programming" "Carol" 7 ].

Definition sampleLibrary : Library :=
  {| Books :=
       <["Clean Code" := {| Title := "Clean Code"; AvailableCopies := 2 |}]>
       (<["Go Programming" :=
            {| Title := "Go Programming"; AvailableCopies := 0 |}]> ∅);
     Loans := <["Go Programming" := sampleLoans]> ∅ |}.

Definition soldOutLibrary : Library :=
  {| Books := <["Design Patterns" :=
                  {| Title := "Design Patterns"; AvailableCopies := 0 |}]>
              (Books NewLibrary);
     Loans := <["Design Patterns" :=
                  [sampleLoan "Design Patterns" "Bob Johnson" 0]]> ∅ |}.

Definition orphanLibrary : Library :=
  {| Books := Books NewLibrary;
     Loans := <["Design Patterns" :=
                  [sampleLoan "Design Patterns" "Bob Johnson" 0]]> ∅ |}.

Definition emptiedLibrary : Library :=
  run NewLibrary [ OpBorrow sampleDay "Clean Code" "Jane Smith";
                   OpReturn "Clean Code" "Jane Smith" ].

Definition fullLibrary : Library :=
  {| Books := <["Go Programming" :=
                  {| Title := "Go Programming"; AvailableCopies := maxInt |}]> ∅;
     Loans := <["Go Programming" :=
                  [sampleLoan "Go Programming" "John" 0]]> ∅ |}.

(** ** Requests served

    [main] registers the four handlers under their paths.  A call is a
    request together with the handler its path selects and, for a borrow,
    the reading [time.Now()] would give. *)

Inductive Call : Type :=
  | CallBook (r : Request)
  | CallBorrow (now : Time) (r : Request)
  | CallExtend (r : Request)
  | CallReturn (r : Request).

Definition serve (l : Library) (c : Call) : Library * Response :=
  match c with
  | CallBook r => getBookHandler l r
  | CallBorrow now r => borrowBookHandler l now r
  | CallExtend r => extendLoanHandler l r
  | CallReturn r => returnBookHandler l r
  end.

(** The store after a sequence of calls. *)
Fixpoint serveAll (l : Library) (calls : list Call) : Library :=
  match calls with
  | [] => l
  | c :: calls' => serveAll (serve l c).1 calls'
  end.

(** A 200 or a 201. *)
Definition succeeded (r : Response) : Prop :=
  Status r = StatusOK \/ Status r = StatusCreated.

(** The loan [borrowBookHandler] builds. *)
Definition newLoan (title : string) (request : Time * string) : LoanDetail :=
  {| BookTitle := title;
     NameOfBorrower := request.2;
     LoanDate := request.1;
     ReturnDate := AddDays request.1 28 |}.

(** A queue of borrowers, each with the clock reading of their request,
    served one after the other on one title; the responses in order. *)
Fixpoint borrowAll (l : Library) (title : string)
    (requests : list (Time * string)) : Library * list Response :=
  match requests with
  | [] => (l, [])
  | request :: rest =>
      let first := Borrow l request.1 title request.2 in
      let others := borrowAll first.1 title rest in
      (others.1, first.2 :: others.2)
  end.

(** [loan] with its return date moved by [days]. *)
Definition postponed (loan : LoanDetail) (days : Z) : LoanDetail :=
  {| BookTitle := BookTitle loan;
     NameOfBorrower := NameOfBorrower loan;
     LoanDate := LoanDate loan;
     ReturnDate := AddDays (ReturnDate loan) days |}.




(** No loan is filed under the empty title or for the empty name. *)
Definition loansNamed (l : Library) : Prop :=
  forall key loans loan,
    Loans l !! key = Some loans -> loan ∈ loans ->
    key <> "" /\ NameOfBorrower loan <> "".

(** Every book is filed under its own title. *)
Definition booksKeyed (l : Library) : Prop :=
  forall key book, Books l !! key = Some book -> Title book = key.

(** How many loans of a list carry [borrower]'s name. *)
Definition borrowerCount (borrower : string) (loans : list LoanDetail) : nat :=
  length (filter (fun loan => NameOfBorrower loan = borrower) loans).

(** Some loan of the list carries [borrower]'s name. *)
Definition holdsLoan (borrower : string) (loans : list LoanDetail) : Prop :=
  exists held, held ∈ loans /\ NameOfBorrower held = borrower.

(** The title an operation is about. *)
Definition opTitle (o : Op) : string :=
  match o with
  | OpLookup title => title
  | OpBorrow _ title _ => title
  | OpExtend title _ => title
  | OpReturn title _ => title
  end.

(** ** Sample times

    [newYork] has the clock changes of New York around 2026: back to
    standard time on 2025-11-02 06:00 UTC, forward on 2026-03-08 07:00 UTC
    (02:00 becomes 03:00), back on 2026-11-01 06:00 UTC.  [gapNow] reads
    02:30 there on 2026-02-08, 28 days before the forward change;
    [gapLibrary] holds a loan due at 02:30 on 2026-02-15, 21 days before
    it; [lateLibrary] holds a loan due on 9999-12-20. *)

Definition est : Zone := mkZone (-18000) I.
Definition edt : Zone := mkZone (-14400) I.

Definition newYork : Location :=
  {| firstZone := edt;
     transitions := [ (1762063200, est); (1772953200, edt); (1793512800, est) ] |}.

Definition gapNow : Time :=
  {| unixSec := 1770535800; nsec := 0; location := newYork |}.





(** Closes [firstMatch] on a concrete list. *)
Ltac first_match_here :=
  split; [reflexivity | split; [reflexivity |]];
  let j := fresh "j" in let other := fresh "other" in
  let Hj := fresh "Hj" in let Hl := fresh "Hl" in
  intros j other Hj Hl;
  repeat (destruct j as [|j]; [simpl in Hl; injection Hl as <-; discriminate |]);
  exfalso; lia.

(** ** Arithmetic of [int] *)

Lemma wrapInt_id (z : Z) : isInt z -> wrapInt z = z.
Proof.
  unfold isInt, wrapInt, minInt, maxInt, intSize.
  change (2 ^ (64 - 1)) with 9223372036854775808.
  change (2 ^ 64) with 18446744073709551616.
  intros Hz. rewrite Z.mod_small by lia. lia.
Qed.

Lemma wrapInt_isInt (z : Z) : isInt (wrapInt z).
Proof.
  unfold isInt, wrapInt, minInt, maxInt, intSize.
  change (2 ^ (64 - 1)) with 9223372036854775808.
  change (2 ^ 64) with 18446744073709551616.
  pose proof (Z.mod_pos_bound (z + 9223372036854775808) 18446744073709551616).
  lia.
Qed.

Lemma wrapInt_overflow : wrapInt (maxInt + 1) = minInt.
Proof. reflexivity. Qed.

Lemma maxInt_value : maxInt = 9223372036854775807.
Proof. reflexivity. Qed.

(** ** Arithmetic of [time.Time] *)

Lemma zoneOffset_bound (z : Zone) :
  - secondsPerDay < zoneOffset z < secondsPerDay.
Proof.
  destruct z as [offset Hday]. simpl.
  by apply bool_decide_unpack in Hday.
Qed.

Lemma offsetAt_bound (l : Location) (sec : Z) :
  - secondsPerDay < offsetAt l sec < secondsPerDay.
Proof. apply zoneOffset_bound. Qed.

(** The instant [time.Date] gives is the reading minus the offset of one
    of the location's zones. *)
Lemma unixOfWall_shift (l : Location) (wall : Z) :
  - secondsPerDay < wall - unixOfWall l wall < secondsPerDay.
Proof.
  unfold unixOfWall, secondsPerDay.
  pose proof (zoneOffset_bound (lookup l wall).1.1) as Hfound.
  pose proof (offsetAt_bound l (wall - zoneOffset (lookup l wall).1.1)) as Hagain.
  unfold secondsPerDay in *.
  destruct (zoneOffset (lookup l wall).1.1 =? 0); [lia|].
  destruct (_ || _); lia.
Qed.

(** Two days or more always lead to a later instant. *)
Lemma AddDays_later (t : Time) (days : Z) :
  2 <= days -> unixSec t < unixSec (AddDays t days).
Proof.
  intros Hdays. unfold AddDays, wallSec. simpl.
  pose proof (unixOfWall_shift (location t)
                (unixSec t + offsetAt (location t) (unixSec t)
                 + secondsPerDay * days)) as Hshift.
  pose proof (offsetAt_bound (location t) (unixSec t)) as Hnow.
  unfold secondsPerDay in *. lia.
Qed.

Lemma AddDays_ne (t : Time) (days : Z) : 2 <= days -> AddDays t days <> t.
Proof.
  intros Hdays Heq. pose proof (AddDays_later t days Hdays) as Hlater.
  rewrite Heq in Hlater. lia.
Qed.

Lemma lookupFrom_fixed (offset : Z) (tx : list (Z * Zone)) :
  forall (current : Zone) (start sec : Z),
    zoneOffset current = offset ->
    Forall (fun tr => zoneOffset tr.2 = offset) tx ->
    zoneOffset (lookupFrom current start tx sec).1.1 = offset.
Proof.
  induction tx as [|[when next] later IH]; intros current start sec Hcur Hall;
    simpl; [done|].
  apply Forall_cons in Hall as [Hnext Hlater].
  destruct (sec <? when); simpl; [done|]. by apply IH.
Qed.

Lemma offsetAt_fixed (l : Location) (sec : Z) :
  fixedOffset l -> offsetAt l sec = zoneOffset (firstZone l).
Proof. intros Hfixed. unfold offsetAt, lookup. by apply lookupFrom_fixed. Qed.

Lemma unixOfWall_fixed (l : Location) (wall : Z) :
  fixedOffset l -> unixOfWall l wall = wall - zoneOffset (firstZone l).
Proof.
  intros Hfixed. unfold unixOfWall.
  fold (offsetAt l wall). rewrite !offsetAt_fixed by done.
  destruct (zoneOffset (firstZone l) =? 0) eqn:Hzero.
  - apply Z.eqb_eq in Hzero. lia.
  - by destruct (_ || _).
Qed.

(** In a location with a single offset, [AddDays] moves the instant and
    the clock reading by whole days. *)
Lemma AddDays_fixed (t : Time) (days : Z) :
  fixedOffset (location t) ->
  unixSec (AddDays t days) = unixSec t + secondsPerDay * days
  /\ wallSec (AddDays t days) = wallSec t + secondsPerDay * days.
Proof.
  intros Hfixed. unfold wallSec, AddDays. simpl.
  rewrite unixOfWall_fixed by done. unfold wallSec.
  rewrite !offsetAt_fixed by done. lia.
Qed.

Lemma lookupFrom_quiet (wall : Z) (tx : list (Z * Zone)) :
  forall (current : Zone) (start sec sec' : Z),
    Forall (fun tr => tr.1 <= wall - secondsPerDay
                      \/ wall + secondsPerDay <= tr.1) tx ->
    wall - secondsPerDay < sec < wall + secondsPerDay ->
    wall - secondsPerDay < sec' < wall + secondsPerDay ->
    lookupFrom current start tx sec = lookupFrom current start tx sec'.
Proof.
  induction tx as [|[when next] later IH]; intros current start sec sec'
    Hquiet Hsec Hsec'; simpl; [done|].
  apply Forall_cons in Hquiet as [Hwhen Hlater]. simpl in Hwhen.
  destruct (sec <? when) eqn:Hlt, (sec' <? when) eqn:Hlt';
    try apply Z.ltb_lt in Hlt; try apply Z.ltb_ge in Hlt;
    try apply Z.ltb_lt in Hlt'; try apply Z.ltb_ge in Hlt';
    first [done | lia | by apply IH].
Qed.

(** Away from the clock changes [time.Date] takes the offset in force and
    the instant it gives shows the reading asked for. *)
Lemma unixOfWall_quiet (l : Location) (wall : Z) :
  quietAround l wall ->
  unixOfWall l wall = wall - offsetAt l wall
  /\ offsetAt l (unixOfWall l wall) = offsetAt l wall.
Proof.
  intros Hquiet.
  pose proof (offsetAt_bound l wall) as Hoff.
  assert (Hsame : forall sec,
             wall - secondsPerDay < sec < wall + secondsPerDay ->
             offsetAt l sec = offsetAt l wall).
  { intros sec Hsec. unfold offsetAt, lookup.
    rewrite (lookupFrom_quiet wall _ _ _ sec wall Hquiet Hsec); [done|].
    unfold secondsPerDay. lia. }
  assert (Hunix : unixOfWall l wall = wall - offsetAt l wall).
  { unfold unixOfWall. fold (offsetAt l wall).
    destruct (offsetAt l wall =? 0) eqn:Hzero.
    - apply Z.eqb_eq in Hzero. lia.
    - destruct (_ || _); [|done]. rewrite Hsame; [done | lia]. }
  split; [done|]. rewrite Hunix. apply Hsame. lia.
Qed.

(** Away from the clock changes [AddDays] keeps the time of day. *)
Lemma AddDays_quiet (t : Time) (days : Z) :
  quietAround (location t) (wallSec t + secondsPerDay * days) ->
  civilDaysLater days t (AddDays t days).
Proof.
  intros Hquiet. unfold civilDaysLater.
  destruct (unixOfWall_quiet _ _ Hquiet) as [Hunix Hoff].
  unfold wallSec at 1. unfold AddDays. simpl. rewrite Hoff, Hunix. lia.
Qed.

Lemma AddDays_fixed_add (t : Time) (a b : Z) :
  fixedOffset (location t) -> AddDays (AddDays t a) b = AddDays t (a + b).
Proof.
  intros Hfixed.
  destruct (AddDays_fixed t a Hfixed) as [_ Hwall].
  unfold AddDays at 1 3. simpl. rewrite Hwall. do 2 f_equal. lia.
Qed.

(** ** The two search loops *)

Section Loops.
Variable borrower : string.

Lemma extendLoop_found (loans : list LoanDetail) :
  forall (rest : list LoanDetail) (i k : nat) (loan : LoanDetail),
    rest !! k = Some loan ->
    NameOfBorrower loan = borrower ->
    (forall j other, (j < k)%nat -> rest !! j = Some other ->
                     NameOfBorrower other <> borrower) ->
    extendLoop borrower loans i rest
    = Some (<[(i + k)%nat := extended loan]> loans, extended loan).
Proof.
  induction rest as [|x rest IH]; intros i k loan Hk Hname Hbefore.
  - discriminate.
  - destruct k as [|k]; simpl in *.
    + injection Hk as ->. rewrite bool_decide_eq_true_2 by done.
      by rewrite Nat.add_0_r.
    + rewrite bool_decide_eq_false_2.
      * rewrite (IH (S i) k loan Hk Hname).
        -- by rewrite Nat.add_succ_r.
        -- intros j other Hj Hl. apply (Hbefore (S j) other); [lia | done].
      * apply (Hbefore 0%nat x); [lia | done].
Qed.

Lemma extendLoop_none (loans : list LoanDetail) :
  forall (rest : list LoanDetail) (i : nat),
    noMatch borrower rest -> extendLoop borrower loans i rest = None.
Proof.
  induction rest as [|x rest IH]; intros i Hno; [done|].
  simpl. rewrite bool_decide_eq_false_2.
  - apply IH. intros other Hin. apply Hno. by right.
  - apply Hno. by left.
Qed.

Lemma scanLoanIndex_found :
  forall (rest : list LoanDetail) (i : Z) (k : nat) (loan : LoanDetail),
    rest !! k = Some loan ->
    NameOfBorrower loan = borrower ->
    (forall j other, (j < k)%nat -> rest !! j = Some other ->
                     NameOfBorrower other <> borrower) ->
    scanLoanIndex borrower rest i = i + Z.of_nat k.
Proof.
  induction rest as [|x rest IH]; intros i k loan Hk Hname Hbefore.
  - discriminate.
  - destruct k as [|k]; simpl in *.
    + injection Hk as ->. rewrite bool_decide_eq_true_2 by done. lia.
    + rewrite bool_decide_eq_false_2.
      * rewrite (IH (i + 1) k loan Hk Hname); [lia|].
        intros j other Hj Hl. apply (Hbefore (S j) other); [lia | done].
      * apply (Hbefore 0%nat x); [lia | done].
Qed.

Lemma scanLoanIndex_none :
  forall (rest : list LoanDetail) (i : Z),
    noMatch borrower rest -> scanLoanIndex borrower rest i = -1.
Proof.
  induction rest as [|x rest IH]; intros i Hno; [done|].
  simpl. rewrite bool_decide_eq_false_2.
  - apply IH. intros other Hin. apply Hno. by right.
  - apply Hno. by left.
Qed.

(** A list either holds no loan of [borrower] or has a first one. *)
Lemma firstMatch_or_noMatch (loans : list LoanDetail) :
  noMatch borrower loans \/ exists i loan, firstMatch borrower loans i loan.
Proof.
  induction loans as [|x loans IH].
  - left. intros other Hin. by apply elem_of_nil in Hin.
  - destruct (decide (NameOfBorrower x = borrower)) as [Heq|Hne].
    + right. exists 0%nat, x. split; [done|]. split; [done|]. lia.
    + destruct IH as [Hno | (i & loan & Hi & Hname & Hbefore)].
      * left. intros other Hin. apply elem_of_cons in Hin as [->|Hin]; auto.
      * right. exists (S i), loan. split; [done|]. split; [done|].
        intros [|j] other Hj Hl; simpl in Hl.
        -- by injection Hl as <-.
        -- apply (Hbefore j other); [lia | done].
Qed.

Lemma firstMatch_lt (loans : list LoanDetail) (i : nat) (loan : LoanDetail) :
  firstMatch borrower loans i loan -> (i < length loans)%nat.
Proof. intros [Hi _]. by apply lookup_lt_Some in Hi. Qed.

Lemma firstMatch_not_noMatch (loans : list LoanDetail) (i : nat) (loan : LoanDetail) :
  firstMatch borrower loans i loan -> ~ noMatch borrower loans.
Proof.
  intros (Hi & Hname & _) Hno. apply (Hno loan); [|done].
  apply list_elem_of_lookup. eauto.
Qed.

(** The first match is unique. *)
Lemma firstMatch_unique (loans : list LoanDetail) (i i' : nat) (loan loan' : LoanDetail) :
  firstMatch borrower loans i loan -> firstMatch borrower loans i' loan' ->
  i = i' /\ loan = loan'.
Proof.
  intros (Hi & Hname & Hbefore) (Hi' & Hname' & Hbefore').
  assert (i = i') as <-.
  { destruct (Nat.lt_trichotomy i i') as [Hlt|[Heq|Hgt]]; [|done|].
    - by destruct (Hbefore' i loan Hlt Hi).
    - by destruct (Hbefore i' loan' Hgt Hi'). }
  split; [done | congruence].
Qed.

(** A loan appended at the end leaves an earlier first match in place
    and otherwise becomes the first match itself. *)
Lemma firstMatch_snoc (loans : list LoanDetail) (new : LoanDetail) :
  NameOfBorrower new = borrower ->
  exists i loan, firstMatch borrower (loans ++ [new])%list i loan
                 /\ (i < length (loans ++ [new])%list)%nat.
Proof.
  intros Hnew.
  destruct (firstMatch_or_noMatch (loans ++ [new])%list) as [Hno | (i & loan & Hfm)].
  - exfalso. apply (Hno new); [|done]. apply elem_of_app. right. by left.
  - exists i, loan. split; [done|]. by eapply firstMatch_lt.
Qed.
End Loops.

(** ** Removal by swap and truncate *)

Lemma swap_truncate_delete (loans : list LoanDetail) (i : nat) (lastLoan : LoanDetail) :
  (i < length loans)%nat ->
  loans !! (length loans - 1)%nat = Some lastLoan ->
  take (length loans - 1)%nat (<[i := lastLoan]> loans) ≡ₚ delete i loans.
Proof.
  intros Hi Hlast.
  destruct loans as [|final pre _] using rev_ind; [simpl in Hi; lia|].
  rewrite length_app in *. simpl in *.
  replace (length pre + 1 - 1)%nat with (length pre) in * by lia.
  rewrite lookup_app_r in Hlast by lia.
  rewrite Nat.sub_diag in Hlast. injection Hlast as ->.
  destruct (decide (i = length pre)) as [->|Hne].
  - rewrite insert_app_r_alt by lia. rewrite Nat.sub_diag. simpl.
    rewrite take_app_length.
    rewrite delete_take_drop. rewrite take_app_length.
    rewrite drop_ge by (rewrite length_app; simpl; lia).
    by rewrite app_nil_r.
  - assert (Hlt : (i < length pre)%nat) by lia.
    rewrite insert_app_l by done.
    rewrite take_app_length' by (by rewrite length_insert).
    rewrite insert_take_drop by done.
    rewrite delete_take_drop.
    rewrite drop_app_le by lia.
    rewrite <- Permutation_middle.
    rewrite app_assoc. rewrite <- Permutation_cons_append.
    by rewrite take_app_le by lia.
Qed.

(** ** The critical sections, case by case *)

Lemma Extend_found (l : Library) (title borrower : string)
    (loans : list LoanDetail) (i : nat) (loan : LoanDetail) :
  Loans l !! title = Some loans ->
  firstMatch borrower loans i loan ->
  Extend l title borrower
  = ({| Books := Books l;
        Loans := <[title := <[i := extended loan]> loans]> (Loans l) |},
     {| Status := StatusOK; Payload := JsonLoan (extended loan) |}).
Proof.
  intros Hloans (Hi & Hname & Hbefore). unfold Extend. rewrite Hloans.
  by rewrite (extendLoop_found borrower loans loans 0 i loan Hi Hname Hbefore).
Qed.

Lemma Extend_no_match (l : Library) (title borrower : string)
    (loans : list LoanDetail) :
  Loans l !! title = Some loans ->
  noMatch borrower loans ->
  Extend l title borrower = (l, errNoLoanForBorrower).
Proof.
  intros Hloans Hno. unfold Extend. rewrite Hloans.
  by rewrite extendLoop_none.
Qed.

Lemma Return_found (l : Library) (title borrower : string)
    (loans : list LoanDetail) (book : BookDetail) (i : nat) (loan : LoanDetail) :
  Loans l !! title = Some loans ->
  Books l !! title = Some book ->
  firstMatch borrower loans i loan ->
  exists lastLoan,
    loans !! (length loans - 1)%nat = Some lastLoan /\
    Return l title borrower
    = ({| Books := <[title := {| Title := Title book;
                                 AvailableCopies := wrapInt (AvailableCopies book + 1) |}]>
                   (Books l);
          Loans := <[title := take (length loans - 1)%nat (<[i := lastLoan]> loans)]>
                   (Loans l) |},
       {| Status := StatusOK;
          Payload := JsonMessage (returnedMessage title borrower) |}).
Proof.
  intros Hloans Hbook Hfm.
  pose proof (firstMatch_lt _ _ _ _ Hfm) as Hlt.
  destruct Hfm as (Hi & Hname & Hbefore).
  destruct (lookup_lt_is_Some_2 loans (length loans - 1)%nat) as [lastLoan Hlast];
    [lia|].
  exists lastLoan. split; [done|].
  unfold Return. rewrite Hloans, Hbook.
  rewrite (scanLoanIndex_found borrower loans 0 i loan Hi Hname Hbefore).
  rewrite Z.add_0_l.
  destruct (Z.of_nat i =? -1) eqn:Hcmp; [apply Z.eqb_eq in Hcmp; lia|].
  rewrite Hlast. cbv zeta. by rewrite Nat2Z.id.
Qed.

Lemma Return_no_match (l : Library) (title borrower : string)
    (loans : list LoanDetail) (book : BookDetail) :
  Loans l !! title = Some loans ->
  Books l !! title = Some book ->
  noMatch borrower loans ->
  Return l title borrower = (l, errNoLoanForBorrower).
Proof.
  intros Hloans Hbook Hno. unfold Return. rewrite Hloans, Hbook.
  by rewrite scanLoanIndex_none.
Qed.

Lemma Borrow_available (l : Library) (now : Time) (title borrower : string)
    (book : BookDetail) :
  Books l !! title = Some book ->
  0 < AvailableCopies book ->
  isInt (AvailableCopies book) ->
  Borrow l now title borrower
  = ({| Books := <[title := {| Title := Title book;
                               AvailableCopies := AvailableCopies book - 1 |}]>
                 (Books l);
        Loans := <[title := (loansOf l title
                             ++ [ {| BookTitle := title;
                                     NameOfBorrower := borrower;
                                     LoanDate := now;
                                     ReturnDate := AddDays now 28 |} ])%list]>
                 (Loans l) |},
     {| Status := StatusCreated;
        Payload := JsonLoan {| BookTitle := title;
                               NameOfBorrower := borrower;
                               LoanDate := now;
                               ReturnDate := AddDays now 28 |} |}).
Proof.
  intros Hbook Hpos Hint. unfold Borrow. rewrite Hbook.
  destruct (AvailableCopies book <=? 0) eqn:Hle; [apply Z.leb_le in Hle; lia|].
  rewrite wrapInt_id; [done|].
  unfold isInt, minInt, maxInt in *. lia.
Qed.

(** What each operation can do to the catalog. *)
Lemma Extend_Books (l : Library) (title borrower : string) :
  Books (Extend l title borrower).1 = Books l.
Proof.
  unfold Extend. destruct (Loans l !! title) as [loans|]; [|done].
  by destruct (extendLoop borrower loans 0 loans) as [[loans' e]|].
Qed.

Lemma Borrow_Books (l : Library) (now : Time) (title borrower : string) :
  (Borrow l now title borrower).1 = l
  \/ exists book,
       Books l !! title = Some book
       /\ 0 < AvailableCopies book
       /\ Books (Borrow l now title borrower).1
          = <[title := {| Title := Title book;
                          AvailableCopies := wrapInt (AvailableCopies book - 1) |}]>
            (Books l).
Proof.
  unfold Borrow. destruct (Books l !! title) as [book|]; [|by left].
  destruct (AvailableCopies book <=? 0) eqn:Hle; [by left|].
  right. exists book. apply Z.leb_gt in Hle. done.
Qed.

Lemma Return_Books (l : Library) (title borrower : string) :
  (Return l title borrower).1 = l
  \/ exists book,
       Books l !! title = Some book
       /\ Books (Return l title borrower).1
          = <[title := {| Title := Title book;
                          AvailableCopies := wrapInt (AvailableCopies book + 1) |}]>
            (Books l).
Proof.
  unfold Return. destruct (Loans l !! title) as [loans|]; [|by left].
  destruct (Books l !! title) as [book|]; [|by left].
  destruct (scanLoanIndex borrower loans 0 =? -1); [by left|].
  destruct (loans !! (length loans - 1)%nat); [|by left].
  right. by exists book.
Qed.

(** The full state each operation leaves. *)
Lemma extendLoop_length (borrower : string) (loans : list LoanDetail) :
  forall (rest : list LoanDetail) (i : nat) (loans' : list LoanDetail)
         (e : LoanDetail),
    extendLoop borrower loans i rest = Some (loans', e) ->
    length loans' = length loans.
Proof.
  induction rest as [|x rest IH]; intros i loans' e Hloop; [discriminate|].
  simpl in Hloop. destruct (bool_decide (NameOfBorrower x = borrower)).
  - injection Hloop as <- _. apply length_insert.
  - by eapply IH.
Qed.

Lemma Extend_state (l : Library) (title borrower : string) :
  (Extend l title borrower).1 = l
  \/ exists loans loans',
       Loans l !! title = Some loans
       /\ length loans' = length loans
       /\ (Extend l title borrower).1
          = {| Books := Books l; Loans := <[title := loans']> (Loans l) |}.
Proof.
  unfold Extend. destruct (Loans l !! title) as [loans|] eqn:Hloans; [|by left].
  destruct (extendLoop borrower loans 0 loans) as [[loans' e]|] eqn:Hloop;
    [|by left].
  right. exists loans, loans'. split; [done|]. split; [|done].
  by eapply extendLoop_length.
Qed.

Lemma Borrow_state (l : Library) (now : Time) (title borrower : string) :
  (Borrow l now title borrower).1 = l
  \/ exists book added,
       Books l !! title = Some book
       /\ 0 < AvailableCopies book
       /\ (Borrow l now title borrower).1
          = {| Books := <[title := {| Title := Title book;
                                      AvailableCopies :=
                                        wrapInt (AvailableCopies book - 1) |}]>
                        (Books l);
               Loans := <[title := (loansOf l title ++ [added])%list]> (Loans l) |}.
Proof.
  unfold Borrow. destruct (Books l !! title) as [book|]; [|by left].
  destruct (AvailableCopies book <=? 0) eqn:Hle; [by left|].
  right. apply Z.leb_gt in Hle. by eexists book, _.
Qed.

Lemma Return_state (l : Library) (title borrower : string) :
  (Return l title borrower).1 = l
  \/ exists book loans kept,
       Books l !! title = Some book
       /\ Loans l !! title = Some loans
       /\ S (length kept) = length loans
       /\ (Return l title borrower).1
          = {| Books := <[title := {| Title := Title book;
                                      AvailableCopies :=
                                        wrapInt (AvailableCopies book + 1) |}]>
                        (Books l);
               Loans := <[title := kept]> (Loans l) |}.
Proof.
  unfold Return. destruct (Loans l !! title) as [loans|]; [|by left].
  destruct (Books l !! title) as [book|]; [|by left].
  destruct (scanLoanIndex borrower loans 0 =? -1); [by left|].
  destruct (loans !! (length loans - 1)%nat) as [lastLoan|] eqn:Hlast; [|by left].
  right. eexists book, loans, _. split; [done|]. split; [done|]. split; [|done].
  apply lookup_lt_Some in Hlast. rewrite length_take, length_insert. lia.
Qed.

(** The store never panics: no run of an operation answers [runtimePanic]. *)
Lemma step_no_panic (l : Library) (o : Op) : (step l o).2 <> runtimePanic.
Proof.
  destruct o as [title | now title borrower | title borrower | title borrower];
    simpl.
  - unfold Lookup. by destruct (Books l !! title).
  - unfold Borrow. destruct (Books l !! title) as [book|]; [|done].
    by destruct (AvailableCopies book <=? 0).
  - destruct (Loans l !! title) as [loans|] eqn:Hloans.
    + destruct (firstMatch_or_noMatch borrower loans) as [Hno|(i & loan & Hfm)].
      * by rewrite (Extend_no_match _ _ _ _ Hloans Hno).
      * by rewrite (Extend_found _ _ _ _ _ _ Hloans Hfm).
    + unfold Extend. by rewrite Hloans.
  - destruct (Loans l !! title) as [loans|] eqn:Hloans;
      [destruct (Books l !! title) as [book|] eqn:Hbook|].
    + destruct (firstMatch_or_noMatch borrower loans) as [Hno|(i & loan & Hfm)].
      * by rewrite (Return_no_match _ _ _ _ _ Hloans Hbook Hno).
      * destruct (Return_found _ _ _ _ _ _ _ Hloans Hbook Hfm) as (? & _ & ->).
        done.
    + unfold Return. by rewrite Hloans, Hbook.
    + unfold Return. by rewrite Hloans.
Qed.

(** A well-formed request reaches the critical section unchanged. *)
Lemma postHandler_valid (l : Library) (title borrower : string)
    (critical : string -> string -> Library * Response) :
  title <> "" -> borrower <> "" ->
  postHandler l {| Method := MethodPost; QueryTitle := "";
                   DecodedBody := Some {| request_Title := title;
                                          request_Borrower := borrower |} |}
              critical
  = critical title borrower.
Proof.
  intros Ht Hb. unfold postHandler. simpl.
  apply String.eqb_neq in Ht, Hb. by rewrite Ht, Hb.
Qed.

(** ** Borrow *)

(** C2.  When a title of the catalog has no copy left, [Borrow] answers
    409 "No copies available" for any borrower and any clock reading, and
    the store it leaves is the store it found: the book map and the loan
    map are both unchanged. *)
Theorem Borrow_no_copies_available (l : Library) (now : Time)
    (title borrower : string) (book : BookDetail) :
  Books l !! title = Some book ->
  AvailableCopies book = 0 ->
  Borrow l now title borrower = (l, errNoCopiesAvailable).
Proof.
  intros Hbook Hzero. unfold Borrow. rewrite Hbook, Hzero. reflexivity.
Qed.

Lemma Borrow_no_copies_available_witness :
  Borrow soldOutLibrary sampleDay "Design Patterns" "Ann"
  = (soldOutLibrary, errNoCopiesAvailable).
Proof.
  apply (Borrow_no_copies_available soldOutLibrary sampleDay
           "Design Patterns" "Ann"
           {| Title := "Design Patterns"; AvailableCopies := 0 |}).
  - vm_compute. reflexivity.
  - reflexivity.
Defined.

(** C3 as stated fails where the clock is put forward.  A loan made in
    New York at 02:30 on 2026-02-08 is due at 01:30 on 2026-03-08: 02:30
    does not exist that night, and the due date is neither 28 times 24
    hours after the loan date nor the same time of day 28 days on. *)
Lemma Borrow_due_date_in_clock_gap :
  exists l' loan,
    Borrow NewLibrary gapNow "Go Programming" "John"
    = (l', {| Status := StatusCreated; Payload := JsonLoan loan |})
    /\ LoanDate loan = gapNow
    /\ ~ daysLater 28 (LoanDate loan) (ReturnDate loan)
    /\ ~ civilDaysLater 28 (LoanDate loan) (ReturnDate loan)
    /\ unixSec (ReturnDate loan)
       = unixSec (LoanDate loan) + secondsPerDay * 28 - 3600.
Proof.
  eexists _, _. split; [vm_compute; reflexivity|].
  split; [reflexivity|].
  split; [unfold daysLater; vm_compute; discriminate|].
  split; [unfold civilDaysLater; vm_compute; discriminate|].
  vm_compute. reflexivity.
Qed.

(** C3, amended.  For a title of the catalog with a positive count,
    [Borrow] succeeds with 201: the count of that title goes down by
    exactly one, one loan is created with [LoanDate] the current time and
    [ReturnDate] what [AddDate(0, 0, 28)] makes of it, that loan is
    appended at the end of the title's loan list, and it is the loan
    handed to the encoder.  The return date is in the location of the
    current time and strictly later; it shows the same time of day 28
    calendar days on when no clock change of the location lies within a
    day of that reading; it is exactly 28 times 24 hours later when the
    location has a single offset.  The client receives the loan when both
    dates fall in the years 0 to 9999. *)
Theorem Borrow_creates_loan (l : Library) (now : Time)
    (title borrower : string) (book : BookDetail) :
  Books l !! title = Some book ->
  0 < AvailableCopies book ->
  isInt (AvailableCopies book) ->
  let loan := {| BookTitle := title; NameOfBorrower := borrower;
                 LoanDate := now; ReturnDate := AddDays now 28 |} in
  let l' := (Borrow l now title borrower).1 in
  Borrow l now title borrower
  = ({| Books := <[title := {| Title := Title book;
                               AvailableCopies := AvailableCopies book - 1 |}]>
                 (Books l);
        Loans := <[title := (loansOf l title ++ [loan])%list]> (Loans l) |},
     {| Status := StatusCreated; Payload := JsonLoan loan |})
  /\ (exists book', Books l' !! title = Some book'
                    /\ AvailableCopies book' = AvailableCopies book - 1)
  /\ loansOf l' title = (loansOf l title ++ [loan])%list
  /\ length (loansOf l' title) = S (length (loansOf l title))
  /\ (forall other, other <> title ->
        Books l' !! other = Books l !! other
        /\ Loans l' !! other = Loans l !! other)
  /\ location (ReturnDate loan) = location now
  /\ nsec (ReturnDate loan) = nsec now
  /\ unixSec now < unixSec (ReturnDate loan)
  /\ (quietAround (location now) (wallSec now + secondsPerDay * 28) ->
      civilDaysLater 28 now (ReturnDate loan))
  /\ (fixedOffset (location now) ->
      daysLater 28 now (ReturnDate loan)
      /\ civilDaysLater 28 now (ReturnDate loan))
  /\ written (Borrow l now title borrower).2
     = (StatusCreated,
        if MarshalJSON_ok now && MarshalJSON_ok (AddDays now 28)
        then SentLoan loan else SentNothing).
Proof.
  intros Hbook Hpos Hint loan l'.
  pose proof (Borrow_available l now title borrower book Hbook Hpos Hint) as Heq.
  fold loan in Heq.
  subst l'. rewrite Heq. simpl.
  split; [done|]. split.
  { eexists. split; [apply lookup_insert_eq | done]. }
  split.
  { unfold loansOf at 1. simpl. by rewrite lookup_insert_eq. }
  split.
  { unfold loansOf at 1. simpl. rewrite lookup_insert_eq. simpl.
    rewrite length_app. simpl. lia. }
  split.
  { intros other Hne. by rewrite !lookup_insert_ne. }
  split; [done|]. split; [done|].
  split; [by apply AddDays_later|].
  split; [apply AddDays_quiet|].
  split; [|done].
  intros Hfixed. by apply AddDays_fixed.
Qed.

Lemma Borrow_creates_loan_witness :
  Borrow NewLibrary sampleDay "Go Programming" "John Doe"
  = ({| Books := <["Go Programming" :=
                     {| Title := "Go Programming"; AvailableCopies := 3 - 1 |}]>
                 (Books NewLibrary);
        Loans := <["Go Programming" :=
                     (loansOf NewLibrary "Go Programming"
                      ++ [ {| BookTitle := "Go Programming";
                              NameOfBorrower := "John Doe";
                              LoanDate := sampleDay;
                              ReturnDate := AddDays sampleDay 28 |} ])%list]>
                 (Loans NewLibrary) |},
     {| Status := StatusCreated;
        Payload := JsonLoan {| BookTitle := "Go Programming";
                               NameOfBorrower := "John Doe";
                               LoanDate := sampleDay;
                               ReturnDate := AddDays sampleDay 28 |} |})
  /\ daysLater 28 sampleDay (AddDays sampleDay 28).
Proof.
  destruct (Borrow_creates_loan NewLibrary sampleDay
              "Go Programming" "John Doe"
              {| Title := "Go Programming"; AvailableCopies := 3 |})
    as (Heq & _ & _ & _ & _ & _ & _ & _ & _ & Hfixed & _).
  - vm_compute. reflexivity.
  - simpl. lia.
  - unfold isInt. simpl. vm_compute. split; discriminate.
  - split; [exact Heq|]. refine (proj1 (Hfixed _)). constructor.
Defined.

(** ** Extend *)







(** ** Return *)

(** C6 as stated fails at the top of the [int] range: the
    return below succeeds, yet the count it leaves is [minInt] and not the
    previous count plus one. *)
Lemma Return_increment_wraps :
  Books fullLibrary !! "Go Programming"
  = Some {| Title := "Go Programming"; AvailableCopies := maxInt |}
  /\ (Return fullLibrary "Go Programming" "John").2
     = {| Status := StatusOK;
          Payload := JsonMessage (returnedMessage "Go Programming" "John") |}
  /\ Books (Return fullLibrary "Go Programming" "John").1 !! "Go Programming"
     = Some {| Title := "Go Programming"; AvailableCopies := minInt |}
  /\ minInt <> maxInt + 1.
Proof.
  split; [vm_compute; reflexivity|].
  split; [vm_compute; reflexivity|].
  split; [vm_compute; reflexivity|].
  vm_compute. discriminate.
Qed.

(** C6, amended.  A successful [Return] removes exactly the first loan of
    the title's list that carries the borrower's name: the found position
    takes the last entry and the last position is dropped, so what remains
    is the old list without that one loan, up to order.  The title's count
    becomes the [int] successor of the old count, which is the old count
    plus one whenever the old count is below [maxInt].  Other titles keep
    their book record and their loans. *)
Theorem Return_removes_first_match (l : Library) (title borrower : string)
    (loans : list LoanDetail) (book : BookDetail) (i : nat) (loan : LoanDetail) :
  Loans l !! title = Some loans ->
  Books l !! title = Some book ->
  firstMatch borrower loans i loan ->
  let l' := (Return l title borrower).1 in
  (Return l title borrower).2
  = {| Status := StatusOK;
       Payload := JsonMessage (returnedMessage title borrower) |}
  /\ (exists lastLoan,
        loans !! (length loans - 1)%nat = Some lastLoan
        /\ Loans l' !! title
           = Some (take (length loans - 1)%nat (<[i := lastLoan]> loans)))
  /\ loansOf l' title ≡ₚ delete i loans
  /\ length (loansOf l' title) = (length loans - 1)%nat
  /\ (exists book',
        Books l' !! title = Some book'
        /\ Title book' = Title book
        /\ AvailableCopies book' = wrapInt (AvailableCopies book + 1)
        /\ (isInt (AvailableCopies book) -> AvailableCopies book < maxInt ->
            AvailableCopies book' = AvailableCopies book + 1))
  /\ (forall other, other <> title ->
        Books l' !! other = Books l !! other
        /\ Loans l' !! other = Loans l !! other).
Proof.
  intros Hloans Hbook Hfm l'.
  pose proof (firstMatch_lt _ _ _ _ Hfm) as Hlt.
  destruct (Return_found l title borrower loans book i loan Hloans Hbook Hfm)
    as (lastLoan & Hlast & Heq).
  subst l'. rewrite Heq. simpl.
  split; [done|]. split.
  { exists lastLoan. split; [done|]. apply lookup_insert_eq. }
  split.
  { unfold loansOf. simpl. rewrite lookup_insert_eq. simpl.
    by apply swap_truncate_delete. }
  split.
  { unfold loansOf. simpl. rewrite lookup_insert_eq. simpl.
    rewrite length_take, length_insert. lia. }
  split.
  { eexists. split; [apply lookup_insert_eq|]. simpl.
    split; [done|]. split; [done|].
    intros Hint Hmax. apply wrapInt_id.
    unfold isInt in *. lia. }
  intros other Hne. by rewrite !lookup_insert_ne.
Qed.

Lemma Return_removes_first_match_witness :
  (Return sampleLibrary "Go Programming" "John").2
  = {| Status := StatusOK;
       Payload := JsonMessage (returnedMessage "Go Programming" "John") |}
  /\ loansOf (Return sampleLibrary "Go Programming" "John").1 "Go Programming"
     ≡ₚ delete 1%nat sampleLoans
  /\ Loans (Return sampleLibrary "Go Programming" "John").1 !! "Go Programming"
     = Some [ sampleLoan "Go Programming" "Alice" 0;
              sampleLoan "Go Programming" "Carol" 7;
              sampleLoan "Go Programming" "John" 5 ].
Proof.
  assert (Hloans : Loans sampleLibrary !! "Go Programming" = Some sampleLoans)
    by (vm_compute; reflexivity).
  assert (Hbook : Books sampleLibrary !! "Go Programming"
                  = Some {| Title := "Go Programming"; AvailableCopies := 0 |})
    by (vm_compute; reflexivity).
  assert (Hfm : firstMatch "John" sampleLoans 1%nat
                  (sampleLoan "Go Programming" "John" 1))
    by first_match_here.
  destruct (Return_removes_first_match sampleLibrary "Go Programming" "John"
              sampleLoans _ 1%nat _ Hloans Hbook Hfm)
    as (Hresp & _ & Hperm & _).
  split; [exact Hresp|]. split; [exact Hperm|].
  vm_compute. reflexivity.
Defined.

(** C7.  On a title of the catalog with a positive count, [Borrow] and
    then [Return] for the same borrower both succeed; the title's book
    record, and with it the count, is back to what it was before the
    borrow, the whole catalog is; and the title has as many loans as
    before: the return removed exactly one loan from the list the borrow
    had extended by one. *)
Theorem Borrow_then_Return (l : Library) (now : Time)
    (title borrower : string) (book : BookDetail) :
  Books l !! title = Some book ->
  0 < AvailableCopies book ->
  isInt (AvailableCopies book) ->
  exists l1 loan l2 i,
    Borrow l now title borrower
    = (l1, {| Status := StatusCreated; Payload := JsonLoan loan |})
    /\ Return l1 title borrower
       = (l2, {| Status := StatusOK;
                 Payload := JsonMessage (returnedMessage title borrower) |})
    /\ Books l2 !! title = Some book
    /\ Books l2 = Books l
    /\ length (loansOf l1 title) = S (length (loansOf l title))
    /\ length (loansOf l2 title) = length (loansOf l title)
    /\ loansOf l2 title ≡ₚ delete i (loansOf l title ++ [loan])%list.
Proof.
  intros Hbook Hpos Hint.
  pose proof (Borrow_available l now title borrower book Hbook Hpos Hint)
    as Hborrow.
  set (loan := {| BookTitle := title; NameOfBorrower := borrower;
                  LoanDate := now; ReturnDate := AddDays now 28 |}) in *.
  set (book1 := {| Title := Title book;
                   AvailableCopies := AvailableCopies book - 1 |}) in *.
  set (l1 := {| Books := <[title := book1]> (Books l);
                Loans := <[title := (loansOf l title ++ [loan])%list]> (Loans l) |})
    in *.
  assert (Hloans1 : Loans l1 !! title = Some (loansOf l title ++ [loan])%list)
    by apply lookup_insert_eq.
  assert (Hbook1 : Books l1 !! title = Some book1) by apply lookup_insert_eq.
  destruct (firstMatch_snoc borrower (loansOf l title) loan eq_refl)
    as (i & found & Hfm & Hlt).
  destruct (Return_found l1 title borrower _ book1 i found Hloans1 Hbook1 Hfm)
    as (lastLoan & Hlast & Hreturn).
  assert (Hback : {| Title := Title book1;
                     AvailableCopies := wrapInt (AvailableCopies book1 + 1) |}
                  = book).
  { destruct book as [t0 c0]. simpl in *. f_equal.
    replace (c0 - 1 + 1) with c0 by lia. by apply wrapInt_id. }
  rewrite Hback in Hreturn.
  eexists l1, loan, _, i.
  split; [exact Hborrow|]. split; [exact Hreturn|]. simpl.
  split; [apply lookup_insert_eq|].
  split; [rewrite insert_insert_eq; by apply insert_id|].
  generalize dependent (loansOf l title). intros old l1 Hborrow Hloans1 Hbook1.
  intros Hfm Hlt Hlast Hreturn.
  unfold loansOf. rewrite Hloans1. simpl. rewrite lookup_insert_eq. simpl.
  split; [rewrite length_app; simpl; lia|].
  split.
  - rewrite length_take, length_insert, length_app. simpl. lia.
  - by apply swap_truncate_delete.
Qed.

Lemma Borrow_then_Return_witness :
  exists l1 loan l2 i,
    Borrow NewLibrary sampleDay "Clean Code" "Jane Smith"
    = (l1, {| Status := StatusCreated; Payload := JsonLoan loan |})
    /\ Return l1 "Clean Code" "Jane Smith"
       = (l2, {| Status := StatusOK;
                 Payload := JsonMessage
                              (returnedMessage "Clean Code" "Jane Smith") |})
    /\ Books l2 !! "Clean Code"
       = Some {| Title := "Clean Code"; AvailableCopies := 2 |}
    /\ Books l2 = Books NewLibrary
    /\ length (loansOf l1 "Clean Code")
       = S (length (loansOf NewLibrary "Clean Code"))
    /\ length (loansOf l2 "Clean Code")
       = length (loansOf NewLibrary "Clean Code")
    /\ loansOf l2 "Clean Code"
       ≡ₚ delete i (loansOf NewLibrary "Clean Code" ++ [loan])%list.
Proof.
  apply (Borrow_then_Return NewLibrary sampleDay "Clean Code" "Jane Smith"
           {| Title := "Clean Code"; AvailableCopies := 2 |}).
  - vm_compute. reflexivity.
  - simpl. lia.
  - unfold isInt. simpl. vm_compute. split; discriminate.
Defined.

(** ** The count of available copies *)

(** C1 as stated fails for [Return] at the top of the
    [int] range: every count of [fullLibrary] is non-negative, and after
    the return below one is not. *)
Lemma Return_can_leave_negative_count :
  copiesAtLeastZero fullLibrary
  /\ ~ copiesAtLeastZero
         (step fullLibrary (OpReturn "Go Programming" "John")).1.
Proof.
  split.
  - unfold copiesAtLeastZero, fullLibrary. simpl.
    apply map_Forall_insert_2; [vm_compute; discriminate | apply map_Forall_empty].
  - intros Hall.
    assert (Hbook : Books (step fullLibrary (OpReturn "Go Programming" "John")).1
                    !! "Go Programming"
                    = Some {| Title := "Go Programming"; AvailableCopies := minInt |})
      by (vm_compute; reflexivity).
    specialize (Hall _ _ Hbook). simpl in Hall. vm_compute in Hall.
    by apply Hall.
Qed.

(** C1, amended.  From a store whose counts are all non-negative [int]s,
    [Lookup], [Borrow] and [Extend] always lead to such a store, and so
    does [Return] of a title whose count is below [maxInt].  [Borrow]
    changes the count of a title only when it is strictly positive, and
    then takes exactly one off.  The only other way a count goes down is
    the wrap-around of a [Return] of that title at [maxInt]. *)
Theorem copies_stay_non_negative (l : Library) (o : Op) :
  copiesNonNegative l ->
  ((forall title borrower book,
       o = OpReturn title borrower -> Books l !! title = Some book ->
       AvailableCopies book < maxInt) ->
   copiesNonNegative (step l o).1)
  /\ (forall now title borrower book book',
        o = OpBorrow now title borrower ->
        Books l !! title = Some book ->
        Books (step l o).1 !! title = Some book' ->
        book' <> book ->
        0 < AvailableCopies book
        /\ AvailableCopies book' = AvailableCopies book - 1)
  /\ (forall title book book',
        Books l !! title = Some book ->
        Books (step l o).1 !! title = Some book' ->
        AvailableCopies book' < AvailableCopies book ->
        (0 < AvailableCopies book
         /\ AvailableCopies book' = AvailableCopies book - 1
         /\ exists now borrower, o = OpBorrow now title borrower)
        \/ (AvailableCopies book = maxInt
            /\ AvailableCopies book' = minInt
            /\ exists borrower, o = OpReturn title borrower)).
Proof.
  intros Hinv.
  destruct o as [title | now title borrower | title borrower | title borrower];
    simpl.
  - unfold Lookup.
    destruct (Books l !! title) as [found|]; simpl;
      (split; [done|]); (split; [done|]);
      intros t b b' Hb Hb' Hlt; rewrite Hb in Hb'; injection Hb' as <-; lia.
  - destruct (Borrow_Books l now title borrower)
      as [-> | (book & Hbook & Hpos & Hbooks)].
    + split; [done|]. split.
      * intros ? t ? b b' _ Hb Hb' Hne. rewrite Hb in Hb'.
        injection Hb' as <-. done.
      * intros t b b' Hb Hb' Hlt.
        rewrite Hb in Hb'. injection Hb' as <-. lia.
    + pose proof (Hinv _ _ Hbook) as Hrange. simpl in Hrange.
      assert (Hwrap : wrapInt (AvailableCopies book - 1) = AvailableCopies book - 1).
      { apply wrapInt_id. unfold isInt, minInt, maxInt in *. lia. }
      unfold copiesNonNegative. rewrite Hbooks, Hwrap. split; [|split].
      * intros _. apply map_Forall_insert_2; [simpl; lia | done].
      * intros ? t ? b b' [= _ <- _] Hb Hb' _.
        rewrite lookup_insert_eq in Hb'. injection Hb' as <-.
        rewrite Hbook in Hb. injection Hb as <-. done.
      * intros t b b' Hb Hb' Hlt. left.
        destruct (decide (t = title)) as [->|Hne].
        -- rewrite lookup_insert_eq in Hb'. injection Hb' as <-.
           rewrite Hbook in Hb. injection Hb as <-. simpl. eauto.
        -- rewrite lookup_insert_ne in Hb' by done.
           rewrite Hb in Hb'. injection Hb' as <-. lia.
  - unfold copiesNonNegative. rewrite Extend_Books.
    split; [done|]. split; [done|].
    intros t b b' Hb Hb' Hlt. rewrite Hb in Hb'. injection Hb' as <-. lia.
  - destruct (Return_Books l title borrower) as [-> | (book & Hbook & Hbooks)].
    + split; [done|]. split; [done|]. intros t b b' Hb Hb' Hlt.
      rewrite Hb in Hb'. injection Hb' as <-. lia.
    + pose proof (Hinv _ _ Hbook) as Hrange. simpl in Hrange.
      unfold copiesNonNegative. rewrite Hbooks. split; [|split; [done|]].
      * intros Hroom.
        pose proof (Hroom title borrower book eq_refl Hbook) as Hlt.
        rewrite wrapInt_id by (unfold isInt, minInt, maxInt in *; lia).
        apply map_Forall_insert_2; [simpl; lia | done].
      * intros t b b' Hb Hb' Hless.
        destruct (decide (t = title)) as [->|Hne].
        -- rewrite lookup_insert_eq in Hb'. injection Hb' as <-.
           rewrite Hbook in Hb. injection Hb as <-. simpl in Hless |- *.
           right.
           destruct (decide (AvailableCopies book = maxInt)) as [Htop|Hbelow].
           ++ rewrite Htop. rewrite wrapInt_overflow. eauto.
           ++ rewrite wrapInt_id in Hless
                by (unfold isInt, minInt, maxInt in *; lia).
              lia.
        -- rewrite lookup_insert_ne in Hb' by done.
           rewrite Hb in Hb'. injection Hb' as <-. lia.
Qed.

Lemma copies_stay_non_negative_witness :
  copiesNonNegative
    (step soldOutLibrary (OpReturn "Design Patterns" "Bob Johnson")).1
  /\ copiesNonNegative
       (step NewLibrary (OpBorrow sampleDay "Go Programming" "John Doe")).1.
Proof.
  assert (Hseed : copiesNonNegative NewLibrary).
  { unfold copiesNonNegative, NewLibrary. simpl.
    repeat (apply map_Forall_insert_2; [vm_compute; split; discriminate|]).
    apply map_Forall_empty. }
  assert (Hsold : copiesNonNegative soldOutLibrary).
  { unfold copiesNonNegative, soldOutLibrary. simpl.
    apply map_Forall_insert_2; [vm_compute; split; discriminate | exact Hseed]. }
  split.
  - refine (proj1 (copies_stay_non_negative soldOutLibrary
                     (OpReturn "Design Patterns" "Bob Johnson") Hsold) _).
    intros title borrower book Hop Hbook. injection Hop as <- <-.
    vm_compute in Hbook. injection Hbook as <-. reflexivity.
  - refine (proj1 (copies_stay_non_negative NewLibrary
                     (OpBorrow sampleDay "Go Programming" "John Doe") Hseed) _).
    intros title borrower book Hop. discriminate Hop.
Defined.

(** ** Titles without loans, titles without a book *)

(** C8 as stated fails when the title's loan list is
    present but empty: [Extend] then answers the 404 that speaks of the
    borrower, not a title-level one, and so does [Return] when the catalog
    has the title. *)
Lemma empty_list_is_not_title_level :
  Loans emptiedLibrary !! "Clean Code" = Some []
  /\ Books emptiedLibrary !! "Clean Code"
     = Some {| Title := "Clean Code"; AvailableCopies := 2 |}
  /\ ~ NotFoundTitle (Extend emptiedLibrary "Clean Code" "Jane Smith").2
  /\ NotFoundBorrowerLoan (Extend emptiedLibrary "Clean Code" "Jane Smith").2
  /\ ~ NotFoundTitle (Return emptiedLibrary "Clean Code" "Jane Smith").2
  /\ NotFoundBorrowerLoan (Return emptiedLibrary "Clean Code" "Jane Smith").2.
Proof.
  split; [vm_compute; reflexivity|].
  split; [vm_compute; reflexivity|].
  assert (He : (Extend emptiedLibrary "Clean Code" "Jane Smith").2
               = errNoLoanForBorrower) by (vm_compute; reflexivity).
  assert (Hr : (Return emptiedLibrary "Clean Code" "Jane Smith").2
               = errNoLoanForBorrower) by (vm_compute; reflexivity).
  rewrite He, Hr. unfold NotFoundTitle, NotFoundBorrowerLoan.
  repeat split; try reflexivity; intros [H|H]; discriminate H.
Qed.

(** C8, amended.  When the loan map has no entry for the title, [Extend]
    and [Return] both answer the title-level 404 "No loans found for this
    book".  When the entry is present but empty, [Extend] answers the
    borrower-level 404, and [Return] answers the title-level 404 "Book not
    found" if the catalog lacks the title and the borrower-level 404
    otherwise.  Whenever the catalog lacks the title, [Return] answers a
    title-level 404.  In all these cases the store is unchanged. *)
Theorem no_loans_not_found (l : Library) (title borrower : string) :
  (Loans l !! title = None ->
     Extend l title borrower = (l, errNoLoansForBook)
     /\ Return l title borrower = (l, errNoLoansForBook)
     /\ NotFoundTitle (Extend l title borrower).2
     /\ NotFoundTitle (Return l title borrower).2)
  /\ (Loans l !! title = Some [] ->
        Extend l title borrower = (l, errNoLoanForBorrower)
        /\ Return l title borrower
           = (l, match Books l !! title with
                 | Some _ => errNoLoanForBorrower
                 | None => errBookNotFound
                 end))
  /\ (Books l !! title = None ->
        (Return l title borrower).1 = l
        /\ NotFoundTitle (Return l title borrower).2
        /\ (Return l title borrower).2
           = match Loans l !! title with
             | Some _ => errBookNotFound
             | None => errNoLoansForBook
             end).
Proof.
  split; [|split].
  - intros Hnone. unfold Extend, Return. rewrite Hnone. simpl.
    repeat split; by right.
  - intros Hempty. unfold Extend, Return. rewrite Hempty. simpl.
    split; [done|]. by destruct (Books l !! title).
  - intros Hbook. unfold Return. rewrite Hbook.
    destruct (Loans l !! title); simpl; repeat split;
      first [by left | by right].
Qed.

Lemma no_loans_not_found_witness :
  (Extend NewLibrary "Go Programming" "John" = (NewLibrary, errNoLoansForBook)
   /\ Return NewLibrary "Go Programming" "John" = (NewLibrary, errNoLoansForBook))
  /\ Extend emptiedLibrary "Clean Code" "Jane Smith"
     = (emptiedLibrary, errNoLoanForBorrower)
  /\ NotFoundTitle (Return orphanLibrary "Design Patterns" "Bob Johnson").2.
Proof.
  destruct (no_loans_not_found NewLibrary "Go Programming" "John")
    as (Habsent & _ & _).
  destruct (no_loans_not_found emptiedLibrary "Clean Code" "Jane Smith")
    as (_ & Hempty & _).
  destruct (no_loans_not_found orphanLibrary "Design Patterns" "Bob Johnson")
    as (_ & _ & Horphan).
  split; [|split].
  - destruct Habsent as (He & Hr & _); [vm_compute; reflexivity|].
    split; [exact He | exact Hr].
  - refine (proj1 (Hempty _)). vm_compute. reflexivity.
  - refine (proj1 (proj2 (Horphan _))). vm_compute. reflexivity.
Defined.

(** ** The catalog *)

Lemma step_dom_Books (l : Library) (o : Op) :
  dom (Books (step l o).1) = dom (Books l).
Proof.
  destruct o as [title | now title borrower | title borrower | title borrower];
    simpl.
  - unfold Lookup. by destruct (Books l !! title).
  - destruct (Borrow_Books l now title borrower)
      as [-> | (book & Hbook & _ & ->)]; [done|].
    by apply dom_insert_lookup_L.
  - by rewrite Extend_Books.
  - destruct (Return_Books l title borrower) as [-> | (book & Hbook & ->)];
      [done|].
    by apply dom_insert_lookup_L.
Qed.

(** C9.  [Lookup] returns the store as it found it; it answers with the
    book bound to exactly the given title and with 404 "Book not found"
    when no book is bound to it; a title that differs from the key in any
    character, be it only in case, finds nothing.  No operation changes
    the set of titles of the catalog. *)
Theorem catalog_is_fixed :
  (forall l title,
      Lookup l title
      = (l, match Books l !! title with
            | Some book => {| Status := StatusOK; Payload := JsonBook book |}
            | None => errBookNotFound
            end))
  /\ (forall loans key book title,
        title <> key ->
        Lookup {| Books := {[ key := book ]}; Loans := loans |} title
        = ({| Books := {[ key := book ]}; Loans := loans |}, errBookNotFound))
  /\ (Lookup NewLibrary "go programming").2 = errBookNotFound
  /\ (forall l o, dom (Books (step l o).1) = dom (Books l))
  /\ (forall l o title,
        is_Some (Books (step l o).1 !! title) <-> is_Some (Books l !! title)).
Proof.
  split; [|split; [|split; [|split]]].
  - intros l title. unfold Lookup. by destruct (Books l !! title).
  - intros loans key book title Hne. unfold Lookup. simpl.
    by rewrite lookup_singleton_ne.
  - vm_compute. reflexivity.
  - apply step_dom_Books.
  - intros l o title.
    rewrite <- !(elem_of_dom (D := gset string)). by rewrite step_dom_Books.
Qed.

Lemma catalog_is_fixed_witness :
  Lookup {| Books := {[ "Go Programming" :=
                          {| Title := "Go Programming"; AvailableCopies := 3 |} ]};
            Loans := ∅ |} "GO PROGRAMMING"
  = ({| Books := {[ "Go Programming" :=
                      {| Title := "Go Programming"; AvailableCopies := 3 |} ]};
        Loans := ∅ |}, errBookNotFound).
Proof.
  refine (proj1 (proj2 catalog_is_fixed) ∅ "Go Programming" _ "GO PROGRAMMING" _).
  discriminate.
Defined.

(** C10.  [Extend] never reads the catalog: its answer and the loans it
    leaves are the same whatever the book map is, and the book map passes
    through.  So when a title has a loan of the borrower but no book,
    [Extend] succeeds with 200 and the updated loan, while [Return] on the
    same store answers the title-level 404 "Book not found" and changes
    nothing. *)
Theorem Extend_ignores_catalog (l : Library) (title borrower : string)
    (loans : list LoanDetail) :
  Books l !! title = None ->
  Loans l !! title = Some loans ->
  (exists held, held ∈ loans /\ NameOfBorrower held = borrower) ->
  (exists i loan,
      firstMatch borrower loans i loan
      /\ Extend l title borrower
         = ({| Books := Books l;
               Loans := <[title := <[i := extended loan]> loans]> (Loans l) |},
            {| Status := StatusOK; Payload := JsonLoan (extended loan) |}))
  /\ Return l title borrower = (l, errBookNotFound)
  /\ NotFoundTitle (Return l title borrower).2
  /\ (forall books,
        Extend {| Books := books; Loans := Loans l |} title borrower
        = ({| Books := books; Loans := Loans (Extend l title borrower).1 |},
           (Extend l title borrower).2)).
Proof.
  intros Hbook Hloans (held & Hin & Hname).
  split; [|split; [|split]].
  - destruct (firstMatch_or_noMatch borrower loans) as [Hno | (i & loan & Hfm)].
    + by destruct (Hno held Hin).
    + exists i, loan. split; [done|]. by apply Extend_found.
  - unfold Return. by rewrite Hloans, Hbook.
  - unfold Return. rewrite Hloans, Hbook. by left.
  - intros books. unfold Extend. simpl. rewrite Hloans.
    by destruct (extendLoop borrower loans 0 loans) as [[loans' e]|].
Qed.

Lemma Extend_ignores_catalog_witness :
  (exists i loan,
      firstMatch "Bob Johnson"
        [sampleLoan "Design Patterns" "Bob Johnson" 0] i loan
      /\ Extend orphanLibrary "Design Patterns" "Bob Johnson"
         = ({| Books := Books orphanLibrary;
               Loans := <["Design Patterns" :=
                            <[i := extended loan]>
                              [sampleLoan "Design Patterns" "Bob Johnson" 0]]>
                        (Loans orphanLibrary) |},
            {| Status := StatusOK; Payload := JsonLoan (extended loan) |}))
  /\ Return orphanLibrary "Design Patterns" "Bob Johnson"
     = (orphanLibrary, errBookNotFound).
Proof.
  destruct (Extend_ignores_catalog orphanLibrary "Design Patterns" "Bob Johnson"
              [sampleLoan "Design Patterns" "Bob Johnson" 0])
    as (Hextend & Hreturn & _).
  - vm_compute. reflexivity.
  - vm_compute. reflexivity.
  - exists (sampleLoan "Design Patterns" "Bob Johnson" 0).
    split; [by left | reflexivity].
  - split; [exact Hextend | exact Hreturn].
Defined.

(** ** Stores reached from the seed

    The counterexamples to C1 and C6 sit at the top of the [int] range.
    No sequence of operations leads there from [NewLibrary]: a count plus
    the number of loans under its title never grows. *)

Lemma step_ledgerFits (l : Library) (o : Op) :
  ledgerFits l -> ledgerFits (step l o).1.
Proof.
  intros Hinv.
  destruct o as [title | now title borrower | title borrower | title borrower];
    simpl.
  - unfold Lookup. by destruct (Books l !! title).
  - destruct (Borrow_state l now title borrower)
      as [-> | (book & added & Hbook & Hpos & ->)]; [done|].
    destruct (Hinv _ _ Hbook) as [Hlow Hfit].
    intros t b Hb. simpl in Hb. unfold loansOf at 1. simpl.
    destruct (decide (t = title)) as [->|Hne].
    + rewrite lookup_insert_eq in Hb. injection Hb as <-.
      rewrite lookup_insert_eq. simpl. rewrite length_app. simpl.
      rewrite wrapInt_id by (unfold isInt, minInt, maxInt in *; lia).
      lia.
    + rewrite lookup_insert_ne in Hb by done. rewrite lookup_insert_ne by done.
      exact (Hinv _ _ Hb).
  - destruct (Extend_state l title borrower)
      as [-> | (loans & loans' & Hloans & Hlen & ->)]; [done|].
    intros t b Hb. simpl in Hb. unfold loansOf at 1. simpl.
    pose proof (Hinv _ _ Hb) as Hold. simpl in Hold.
    destruct (decide (t = title)) as [->|Hne].
    + rewrite lookup_insert_eq. simpl. rewrite Hlen.
      unfold loansOf in Hold. by rewrite Hloans in Hold.
    + by rewrite lookup_insert_ne.
  - destruct (Return_state l title borrower)
      as [-> | (book & loans & kept & Hbook & Hloans & Hlen & ->)]; [done|].
    destruct (Hinv _ _ Hbook) as [Hlow Hfit].
    unfold loansOf in Hfit. rewrite Hloans in Hfit. simpl in Hfit.
    intros t b Hb. simpl in Hb. unfold loansOf at 1. simpl.
    destruct (decide (t = title)) as [->|Hne].
    + rewrite lookup_insert_eq in Hb. injection Hb as <-.
      rewrite lookup_insert_eq. simpl.
      rewrite wrapInt_id by (unfold isInt, minInt, maxInt in *; lia).
      lia.
    + rewrite lookup_insert_ne in Hb by done. rewrite lookup_insert_ne by done.
      exact (Hinv _ _ Hb).
Qed.

Lemma run_ledgerFits (ops : list Op) :
  forall l, ledgerFits l -> ledgerFits (run l ops).
Proof.
  induction ops as [|o ops IH]; intros l Hinv; [done|].
  simpl. apply IH. by apply step_ledgerFits.
Qed.

Lemma NewLibrary_ledgerFits : ledgerFits NewLibrary.
Proof.
  unfold ledgerFits, NewLibrary. simpl.
  repeat (apply map_Forall_insert_2; [vm_compute; split; discriminate|]).
  apply map_Forall_empty.
Qed.

(** After any sequence of operations on the seeded store every count is
    a non-negative [int]. *)
Lemma reachable_copies_non_negative (ops : list Op) :
  copiesNonNegative (run NewLibrary ops).
Proof.
  pose proof (run_ledgerFits ops NewLibrary NewLibrary_ledgerFits) as Hinv.
  intros t b Hb. destruct (Hinv t b Hb) as [Hlow Hfit]. simpl in *. lia.
Qed.

(** ** The handlers around the critical sections *)

Lemma getBookHandler_valid (l : Library) (title : string) (body : option LoanRequest) :
  title <> "" ->
  getBookHandler l {| Method := MethodGet; QueryTitle := title;
                      DecodedBody := body |}
  = Lookup l title.
Proof.
  intros Ht. unfold getBookHandler. simpl.
  apply String.eqb_neq in Ht. by rewrite Ht.
Qed.

Lemma borrowBookHandler_valid (l : Library) (now : Time) (title borrower : string) :
  title <> "" -> borrower <> "" ->
  borrowBookHandler l now
    {| Method := MethodPost; QueryTitle := "";
       DecodedBody := Some {| request_Title := title;
                              request_Borrower := borrower |} |}
  = Borrow l now title borrower.
Proof. intros Ht Hb. unfold borrowBookHandler. by apply postHandler_valid. Qed.

Lemma extendLoanHandler_valid (l : Library) (title borrower : string) :
  title <> "" -> borrower <> "" ->
  extendLoanHandler l
    {| Method := MethodPost; QueryTitle := "";
       DecodedBody := Some {| request_Title := title;
                              request_Borrower := borrower |} |}
  = Extend l title borrower.
Proof. intros Ht Hb. unfold extendLoanHandler. by apply postHandler_valid. Qed.

Lemma returnBookHandler_valid (l : Library) (title borrower : string) :
  title <> "" -> borrower <> "" ->
  returnBookHandler l
    {| Method := MethodPost; QueryTitle := "";
       DecodedBody := Some {| request_Title := title;
                              request_Borrower := borrower |} |}
  = Return l title borrower.
Proof. intros Ht Hb. unfold returnBookHandler. by apply postHandler_valid. Qed.

(** A request that is refused before the lock is taken leaves the store
    alone. *)
Lemma postHandler_refused (l : Library) (r : Request)
    (critical : string -> string -> Library * Response) :
  Method r <> MethodPost
  \/ DecodedBody r = None
  \/ (exists q, DecodedBody r = Some q
                /\ (request_Title q = "" \/ request_Borrower q = "")) ->
  (postHandler l r critical).1 = l
  /\ Status (postHandler l r critical).2 <> StatusOK
  /\ Status (postHandler l r critical).2 <> StatusCreated.
Proof.
  unfold postHandler. intros Hwhy.
  destruct (String.eqb (Method r) MethodPost) eqn:Hm; simpl; [|done].
  apply String.eqb_eq in Hm.
  destruct Hwhy as [Hbad | [Hnone | (q & Hq & Hempty)]]; [done | |].
  - by rewrite Hnone.
  - rewrite Hq.
    destruct Hempty as [-> | ->]; simpl; [done|].
    by rewrite orb_true_r.
Qed.

(** ** Every outcome of the three mutating operations *)

Lemma holdsLoan_firstMatch (borrower : string) (loans : list LoanDetail) :
  holdsLoan borrower loans <-> exists i loan, firstMatch borrower loans i loan.
Proof.
  split.
  - intros (held & Hin & Hname).
    destruct (firstMatch_or_noMatch borrower loans) as [Hno|Hfm]; [|done].
    by destruct (Hno held Hin).
  - intros (i & loan & Hi & Hname & _). exists loan. split; [|done].
    apply list_elem_of_lookup. eauto.
Qed.

Lemma noMatch_not_holdsLoan (borrower : string) (loans : list LoanDetail) :
  noMatch borrower loans <-> ~ holdsLoan borrower loans.
Proof.
  split.
  - intros Hno (held & Hin & Hname). by apply (Hno held).
  - intros Hnot other Hin Hname. apply Hnot. by exists other.
Qed.

Lemma Borrow_cases (l : Library) (now : Time) (title borrower : string) :
  (Books l !! title = None
   /\ Borrow l now title borrower = (l, errBookNotFound))
  \/ (exists book, Books l !! title = Some book
                   /\ AvailableCopies book <= 0
                   /\ Borrow l now title borrower = (l, errNoCopiesAvailable))
  \/ (exists book, Books l !! title = Some book
                   /\ 0 < AvailableCopies book
                   /\ Borrow l now title borrower
                      = ({| Books := <[title := {| Title := Title book;
                                                   AvailableCopies :=
                                                     wrapInt (AvailableCopies book - 1) |}]>
                                     (Books l);
                            Loans := <[title := (loansOf l title
                                                 ++ [newLoan title (now, borrower)])%list]>
                                     (Loans l) |},
                         {| Status := StatusCreated;
                            Payload := JsonLoan (newLoan title (now, borrower)) |})).
Proof.
  unfold Borrow. destruct (Books l !! title) as [book|]; [|by left].
  right. destruct (AvailableCopies book <=? 0) eqn:Hle.
  - left. exists book. apply Z.leb_le in Hle. done.
  - right. exists book. apply Z.leb_gt in Hle. done.
Qed.

Lemma Extend_cases (l : Library) (title borrower : string) :
  (Loans l !! title = None
   /\ Extend l title borrower = (l, errNoLoansForBook))
  \/ (exists loans, Loans l !! title = Some loans
                    /\ noMatch borrower loans
                    /\ Extend l title borrower = (l, errNoLoanForBorrower))
  \/ (exists loans i loan,
        Loans l !! title = Some loans
        /\ firstMatch borrower loans i loan
        /\ Extend l title borrower
           = ({| Books := Books l;
                 Loans := <[title := <[i := extended loan]> loans]> (Loans l) |},
              {| Status := StatusOK; Payload := JsonLoan (extended loan) |})).
Proof.
  destruct (Loans l !! title) as [loans|] eqn:Hloans.
  - right. destruct (firstMatch_or_noMatch borrower loans)
      as [Hno | (i & loan & Hfm)].
    + left. exists loans. eauto using Extend_no_match.
    + right. exists loans, i, loan. eauto using Extend_found.
  - left. split; [done|]. unfold Extend. by rewrite Hloans.
Qed.

Lemma Return_cases (l : Library) (title borrower : string) :
  (Loans l !! title = None
   /\ Return l title borrower = (l, errNoLoansForBook))
  \/ (exists loans, Loans l !! title = Some loans
                    /\ Books l !! title = None
                    /\ Return l title borrower = (l, errBookNotFound))
  \/ (exists loans book,
        Loans l !! title = Some loans
        /\ Books l !! title = Some book
        /\ noMatch borrower loans
        /\ Return l title borrower = (l, errNoLoanForBorrower))
  \/ (exists loans book i loan lastLoan,
        Loans l !! title = Some loans
        /\ Books l !! title = Some book
        /\ firstMatch borrower loans i loan
        /\ loans !! (length loans - 1)%nat = Some lastLoan
        /\ Return l title borrower
           = ({| Books := <[title := {| Title := Title book;
                                        AvailableCopies :=
                                          wrapInt (AvailableCopies book + 1) |}]>
                          (Books l);
                 Loans := <[title := take (length loans - 1)%nat
                                       (<[i := lastLoan]> loans)]> (Loans l) |},
              {| Status := StatusOK;
                 Payload := JsonMessage (returnedMessage title borrower) |})).
Proof.
  destruct (Loans l !! title) as [loans|] eqn:Hloans;
    [|left; split; [done|]; unfold Return; by rewrite Hloans].
  right.
  destruct (Books l !! title) as [book|] eqn:Hbook;
    [|left; exists loans; repeat split; unfold Return; by rewrite Hloans, Hbook].
  right.
  destruct (firstMatch_or_noMatch borrower loans) as [Hno | (i & loan & Hfm)].
  - left. exists loans, book. eauto using Return_no_match.
  - right.
    destruct (Return_found l title borrower loans book i loan Hloans Hbook Hfm)
      as (lastLoan & Hlast & Heq).
    exists loans, book, i, loan, lastLoan. done.
Qed.

(** X1.  The answer of [Borrow] is decided by the catalog alone: 404
    "Book not found" exactly when the title has no book, 409 "No copies
    available" exactly when its count is zero or negative, 201 exactly
    when its count is positive; and any answer but 201 leaves the store
    as it was. *)
Theorem Borrow_outcome (l : Library) (now : Time) (title borrower : string) :
  ((Borrow l now title borrower).2 = errBookNotFound
   <-> Books l !! title = None)
  /\ ((Borrow l now title borrower).2 = errNoCopiesAvailable
      <-> exists book, Books l !! title = Some book /\ AvailableCopies book <= 0)
  /\ (Status (Borrow l now title borrower).2 = StatusCreated
      <-> exists book, Books l !! title = Some book /\ 0 < AvailableCopies book)
  /\ (Status (Borrow l now title borrower).2 <> StatusCreated ->
      (Borrow l now title borrower).1 = l).
Proof.
  destruct (Borrow_cases l now title borrower)
    as [(Hbook & ->) | [(book & Hbook & Hle & ->) | (book & Hbook & Hpos & ->)]];
    simpl; rewrite Hbook.
  - repeat split; try done; intros (b & Hb & _); discriminate Hb.
  - repeat split; try done.
    + by exists book.
    + intros (b & Hb & Hb'). injection Hb as <-. lia.
  - repeat split; try done.
    + intros (b & Hb & Hb'). injection Hb as <-. lia.
    + by exists book.
Qed.

(** X2.  The answer of [Extend] is decided by the loan map alone: the
    title-level 404 exactly when the title has no entry, the
    borrower-level 404 exactly when it has an entry none of whose loans
    carries the borrower's name (an empty entry included), 200 exactly
    when some loan of the entry does; and any answer but 200 leaves the
    store as it was. *)
Theorem Extend_outcome (l : Library) (title borrower : string) :
  ((Extend l title borrower).2 = errNoLoansForBook
   <-> Loans l !! title = None)
  /\ ((Extend l title borrower).2 = errNoLoanForBorrower
      <-> exists loans, Loans l !! title = Some loans
                        /\ ~ holdsLoan borrower loans)
  /\ (Status (Extend l title borrower).2 = StatusOK
      <-> exists loans, Loans l !! title = Some loans
                        /\ holdsLoan borrower loans)
  /\ (Status (Extend l title borrower).2 <> StatusOK ->
      (Extend l title borrower).1 = l).
Proof.
  destruct (Extend_cases l title borrower)
    as [(Hloans & ->) | [(loans & Hloans & Hno & ->)
                        | (loans & i & loan & Hloans & Hfm & ->)]];
    simpl; rewrite Hloans.
  - repeat split; try done; intros (ls & Hls & _); discriminate Hls.
  - apply noMatch_not_holdsLoan in Hno.
    repeat split; try done.
    + by exists loans.
    + intros (ls & Hls & Hheld). by injection Hls as <-.
  - assert (Hheld : holdsLoan borrower loans)
      by (apply holdsLoan_firstMatch; eauto).
    repeat split; try done.
    + intros (ls & Hls & Hnot). by injection Hls as <-.
    + by exists loans.
Qed.

(** X3.  The answer of [Return]: the title-level 404 "No loans found for
    this book" exactly when the loan map has no entry for the title; the
    404 "Book not found" exactly when it has one but the catalog lacks the
    title; the borrower-level 404 exactly when both have the title and no
    loan of the entry carries the borrower's name; 200 exactly when both
    have the title and some loan does.  The loan map is consulted before
    the catalog, and any answer but 200 leaves the store as it was. *)
Theorem Return_outcome (l : Library) (title borrower : string) :
  ((Return l title borrower).2 = errNoLoansForBook
   <-> Loans l !! title = None)
  /\ ((Return l title borrower).2 = errBookNotFound
      <-> is_Some (Loans l !! title) /\ Books l !! title = None)
  /\ ((Return l title borrower).2 = errNoLoanForBorrower
      <-> exists loans, Loans l !! title = Some loans
                        /\ is_Some (Books l !! title)
                        /\ ~ holdsLoan borrower loans)
  /\ (Status (Return l title borrower).2 = StatusOK
      <-> exists loans, Loans l !! title = Some loans
                        /\ is_Some (Books l !! title)
                        /\ holdsLoan borrower loans)
  /\ (Status (Return l title borrower).2 <> StatusOK ->
      (Return l title borrower).1 = l).
Proof.
  destruct (Return_cases l title borrower)
    as [(Hloans & ->)
       | [(loans & Hloans & Hbook & ->)
         | [(loans & book & Hloans & Hbook & Hno & ->)
           | (loans & book & i & loan & lastLoan
              & Hloans & Hbook & Hfm & Hlast & ->)]]];
    simpl; rewrite Hloans; try rewrite Hbook.
  - repeat split; try done.
    + intros [[ls Hls] _]. discriminate Hls.
    + intros (ls & Hls & _). discriminate Hls.
    + intros (ls & Hls & _). discriminate Hls.
  - repeat split; try done.
    + intros (ls & _ & [b Hb] & _). discriminate Hb.
    + intros (ls & _ & [b Hb] & _). discriminate Hb.
  - apply noMatch_not_holdsLoan in Hno.
    repeat split; try done.
    + intros [_ Hb]. discriminate Hb.
    + by exists loans.
    + intros (ls & Hls & _ & Hheld). by injection Hls as <-.
  - assert (Hheld : holdsLoan borrower loans)
      by (apply holdsLoan_firstMatch; eauto).
    repeat split; try done.
    + intros [_ Hb]. discriminate Hb.
    + intros (ls & Hls & _ & Hnot). by injection Hls as <-.
    + by exists loans.
Qed.

(** ** What a handler can answer, and when the store moves *)

Lemma postHandler_cases (l : Library) (r : Request)
    (critical : string -> string -> Library * Response) :
  (exists msg code,
      postHandler l r critical = (l, http_Error msg code)
      /\ (code = StatusBadRequest \/ code = StatusMethodNotAllowed))
  \/ (exists title borrower,
        title <> "" /\ borrower <> ""
        /\ DecodedBody r = Some {| request_Title := title;
                                   request_Borrower := borrower |}
        /\ postHandler l r critical = critical title borrower).
Proof.
  unfold postHandler.
  destruct (String.eqb (Method r) MethodPost); simpl; [|left; eauto].
  destruct (DecodedBody r) as [[title borrower]|]; simpl; [|left; eauto].
  destruct (String.eqb title "") eqn:Ht; simpl; [left; eauto|].
  destruct (String.eqb borrower "") eqn:Hb; simpl; [left; eauto|].
  right. exists title, borrower.
  apply String.eqb_neq in Ht, Hb. done.
Qed.

Lemma Borrow_moves (l : Library) (now : Time) (title borrower : string) :
  (Borrow l now title borrower).1 <> l
  <-> Status (Borrow l now title borrower).2 = StatusCreated.
Proof.
  destruct (Borrow_cases l now title borrower)
    as [(Hbook & ->) | [(book & Hbook & Hle & ->) | (book & Hbook & Hpos & ->)]];
    simpl; [done | done |].
  split; [done|]. intros _ Heq.
  apply (f_equal (fun s => length (loansOf s title))) in Heq.
  unfold loansOf at 1 in Heq. simpl in Heq.
  rewrite lookup_insert_eq in Heq. simpl in Heq.
  rewrite length_app in Heq. simpl in Heq. lia.
Qed.

Lemma Extend_moves (l : Library) (title borrower : string) :
  (Extend l title borrower).1 <> l
  <-> Status (Extend l title borrower).2 = StatusOK.
Proof.
  destruct (Extend_cases l title borrower)
    as [(Hloans & ->) | [(loans & Hloans & Hno & ->)
                        | (loans & i & loan & Hloans & Hfm & ->)]];
    simpl; [done | done |].
  split; [done|]. intros _ Heq.
  apply (f_equal (fun s => Loans s !! title)) in Heq. simpl in Heq.
  rewrite lookup_insert_eq, Hloans in Heq. injection Heq as Heq.
  apply (f_equal (fun ls => ls !! i)) in Heq.
  rewrite list_lookup_insert_eq in Heq by (by eapply firstMatch_lt).
  destruct Hfm as (Hi & _). rewrite Hi in Heq. injection Heq as Heq.
  apply (f_equal ReturnDate) in Heq. simpl in Heq.
  by apply (AddDays_ne (ReturnDate loan) 21).
Qed.

Lemma Return_moves (l : Library) (title borrower : string) :
  (Return l title borrower).1 <> l
  <-> Status (Return l title borrower).2 = StatusOK.
Proof.
  destruct (Return_cases l title borrower)
    as [(Hloans & ->)
       | [(loans & Hloans & Hbook & ->)
         | [(loans & book & Hloans & Hbook & Hno & ->)
           | (loans & book & i & loan & lastLoan
              & Hloans & Hbook & Hfm & Hlast & ->)]]];
    simpl; [done | done | done |].
  split; [done|]. intros _ Heq.
  apply (f_equal (fun s => length (loansOf s title))) in Heq.
  unfold loansOf in Heq. simpl in Heq.
  rewrite lookup_insert_eq, Hloans in Heq. simpl in Heq.
  rewrite length_take, length_insert in Heq.
  apply lookup_lt_Some in Hlast. lia.
Qed.

(** X4.  A handler changes the store exactly when it answers with
    success: [getBookHandler] never does; [borrowBookHandler] does exactly
    when it answers 201, [extendLoanHandler] and [returnBookHandler]
    exactly when they answer 200.  A refused or failed request leaves no
    trace, and a successful one always leaves one. *)
Theorem store_moves_exactly_on_success (l : Library) (now : Time) (r : Request) :
  (getBookHandler l r).1 = l
  /\ ((borrowBookHandler l now r).1 <> l
      <-> Status (borrowBookHandler l now r).2 = StatusCreated)
  /\ ((extendLoanHandler l r).1 <> l
      <-> Status (extendLoanHandler l r).2 = StatusOK)
  /\ ((returnBookHandler l r).1 <> l
      <-> Status (returnBookHandler l r).2 = StatusOK).
Proof.
  split; [|split; [|split]].
  - unfold getBookHandler, Lookup.
    destruct (negb _); [done|]. destruct (String.eqb _ _); [done|].
    by destruct (Books l !! QueryTitle r).
  - unfold borrowBookHandler.
    destruct (postHandler_cases l r (Borrow l now))
      as [(msg & code & -> & [-> | ->]) | (t & b & _ & _ & _ & ->)];
      [done | done | apply Borrow_moves].
  - unfold extendLoanHandler.
    destruct (postHandler_cases l r (Extend l))
      as [(msg & code & -> & [-> | ->]) | (t & b & _ & _ & _ & ->)];
      [done | done | apply Extend_moves].
  - unfold returnBookHandler.
    destruct (postHandler_cases l r (Return l))
      as [(msg & code & -> & [-> | ->]) | (t & b & _ & _ & _ & ->)];
      [done | done | apply Return_moves].
Qed.

(** X5.  The status codes each handler can answer with:
    [getBookHandler] 200, 400, 404 or 405; [borrowBookHandler] 201, 400,
    404, 405 or 409; [extendLoanHandler] and [returnBookHandler] 200, 400,
    404 or 405.  In particular no request makes a handler panic: the
    index [len(loans)-1] that [returnBookHandler] reads is always in
    range. *)
Theorem handler_status_codes (l : Library) (now : Time) (r : Request) :
  (Status (getBookHandler l r).2
     ∈ [StatusOK; StatusBadRequest; StatusNotFound; StatusMethodNotAllowed])
  /\ (Status (borrowBookHandler l now r).2
        ∈ [StatusCreated; StatusBadRequest; StatusNotFound;
           StatusMethodNotAllowed; StatusConflict])
  /\ (Status (extendLoanHandler l r).2
        ∈ [StatusOK; StatusBadRequest; StatusNotFound; StatusMethodNotAllowed])
  /\ (Status (returnBookHandler l r).2
        ∈ [StatusOK; StatusBadRequest; StatusNotFound; StatusMethodNotAllowed])
  /\ Payload (getBookHandler l r).2 <> GoPanic
  /\ Payload (borrowBookHandler l now r).2 <> GoPanic
  /\ Payload (extendLoanHandler l r).2 <> GoPanic
  /\ Payload (returnBookHandler l r).2 <> GoPanic.
Proof.
  assert (Hget : exists code body,
             (getBookHandler l r).2 = {| Status := code; Payload := body |}
             /\ code ∈ [StatusOK; StatusBadRequest; StatusNotFound;
                        StatusMethodNotAllowed]
             /\ body <> GoPanic).
  { unfold getBookHandler, Lookup.
    destruct (negb _); [|destruct (String.eqb _ _);
                          [|destruct (Books l !! QueryTitle r)]];
      simpl; eexists _, _; (split; [reflexivity|]); split;
      solve [done | repeat constructor]. }
  assert (Hborrow : exists code body,
             (borrowBookHandler l now r).2 = {| Status := code; Payload := body |}
             /\ code ∈ [StatusCreated; StatusBadRequest; StatusNotFound;
                        StatusMethodNotAllowed; StatusConflict]
             /\ body <> GoPanic).
  { unfold borrowBookHandler.
    destruct (postHandler_cases l r (Borrow l now))
      as [(msg & code & -> & [-> | ->]) | (t & b & _ & _ & _ & ->)];
      [| |destruct (Borrow_cases l now t b)
            as [(_ & ->) | [(? & _ & _ & ->) | (? & _ & _ & ->)]]];
      simpl; eexists _, _; (split; [reflexivity|]); split;
      solve [done | repeat constructor]. }
  assert (Hextend : exists code body,
             (extendLoanHandler l r).2 = {| Status := code; Payload := body |}
             /\ code ∈ [StatusOK; StatusBadRequest; StatusNotFound;
                        StatusMethodNotAllowed]
             /\ body <> GoPanic).
  { unfold extendLoanHandler.
    destruct (postHandler_cases l r (Extend l))
      as [(msg & code & -> & [-> | ->]) | (t & b & _ & _ & _ & ->)];
      [| |destruct (Extend_cases l t b)
            as [(_ & ->) | [(? & _ & _ & ->) | (? & ? & ? & _ & _ & ->)]]];
      simpl; eexists _, _; (split; [reflexivity|]); split;
      solve [done | repeat constructor]. }
  assert (Hreturn : exists code body,
             (returnBookHandler l r).2 = {| Status := code; Payload := body |}
             /\ code ∈ [StatusOK; StatusBadRequest; StatusNotFound;
                        StatusMethodNotAllowed]
             /\ body <> GoPanic).
  { unfold returnBookHandler.
    destruct (postHandler_cases l r (Return l))
      as [(msg & code & -> & [-> | ->]) | (t & b & _ & _ & _ & ->)];
      [| |destruct (Return_cases l t b)
            as [(_ & ->)
               | [(? & _ & _ & ->)
                 | [(? & ? & _ & _ & _ & ->)
                   | (? & ? & ? & ? & ? & _ & _ & _ & _ & ->)]]]];
      simpl; eexists _, _; (split; [reflexivity|]); split;
      solve [done | repeat constructor]. }
  destruct Hget as (? & ? & -> & ? & ?), Hborrow as (? & ? & -> & ? & ?),
           Hextend as (? & ? & -> & ? & ?), Hreturn as (? & ? & -> & ? & ?).
  simpl. repeat split; done.
Qed.

(** ** Bookkeeping along a run *)

Lemma loansOf_insert (books : gmap string BookDetail)
    (loans : gmap string (list LoanDetail)) (title : string)
    (entry : list LoanDetail) :
  loansOf {| Books := books; Loans := <[title := entry]> loans |} title = entry.
Proof. unfold loansOf. simpl. by rewrite lookup_insert_eq. Qed.

Lemma loansOf_insert_ne (books books' : gmap string BookDetail)
    (loans : gmap string (list LoanDetail)) (title other : string)
    (entry : list LoanDetail) :
  other <> title ->
  loansOf {| Books := books; Loans := <[title := entry]> loans |} other
  = loansOf {| Books := books'; Loans := loans |} other.
Proof. intros Hne. unfold loansOf. simpl. by rewrite lookup_insert_ne. Qed.

Lemma step_holdings (l : Library) (o : Op) (title : string) (book : BookDetail) :
  ledgerFits l ->
  Books l !! title = Some book ->
  exists book',
    Books (step l o).1 !! title = Some book'
    /\ AvailableCopies book'
       + Z.of_nat (length (loansOf (step l o).1 title))
       = AvailableCopies book + Z.of_nat (length (loansOf l title)).
Proof.
  intros Hinv Hbook. destruct l as [books loans]. simpl in Hbook.
  destruct o as [t | now t borrower | t borrower | t borrower]; simpl.
  - unfold Lookup. simpl. destruct (books !! t); simpl; eauto.
  - destruct (Borrow_state (mkLibrary books loans) now t borrower)
      as [-> | (found & added & Hfound & Hpos & ->)]; [eauto|].
    simpl in *.
    destruct (decide (title = t)) as [->|Hne].
    + rewrite Hbook in Hfound. injection Hfound as <-.
      destruct (Hinv _ _ Hbook) as [Hlow Hfit].
      rewrite lookup_insert_eq, loansOf_insert. eexists. split; [done|].
      simpl. rewrite length_app. simpl.
      rewrite wrapInt_id by (unfold isInt, minInt, maxInt in *; lia).
      lia.
    + rewrite lookup_insert_ne by done.
      rewrite (loansOf_insert_ne _ books) by done. eauto.
  - destruct (Extend_state (mkLibrary books loans) t borrower)
      as [-> | (old & new & Hloans & Hlen & ->)]; [eauto|].
    simpl in *. exists book. split; [done|].
    destruct (decide (title = t)) as [->|Hne].
    + rewrite loansOf_insert, Hlen. unfold loansOf. simpl. by rewrite Hloans.
    + by rewrite (loansOf_insert_ne _ books).
  - destruct (Return_state (mkLibrary books loans) t borrower)
      as [-> | (found & old & kept & Hfound & Hloans & Hlen & ->)]; [eauto|].
    simpl in *.
    destruct (decide (title = t)) as [->|Hne].
    + rewrite Hbook in Hfound. injection Hfound as <-.
      destruct (Hinv _ _ Hbook) as [Hlow Hfit].
      unfold loansOf at 1 in Hfit. simpl in Hfit. rewrite Hloans in Hfit.
      simpl in Hfit.
      rewrite lookup_insert_eq, loansOf_insert. eexists. split; [done|].
      simpl. unfold loansOf. simpl. rewrite Hloans. simpl.
      rewrite wrapInt_id by (unfold isInt, minInt, maxInt in *; lia).
      lia.
    + rewrite lookup_insert_ne by done.
      rewrite (loansOf_insert_ne _ books) by done. eauto.
Qed.

Lemma run_holdings (ops : list Op) :
  forall (l : Library) (title : string) (book : BookDetail),
    ledgerFits l ->
    Books l !! title = Some book ->
    exists book',
      Books (run l ops) !! title = Some book'
      /\ 0 <= AvailableCopies book'
      /\ AvailableCopies book'
         + Z.of_nat (length (loansOf (run l ops) title))
         = AvailableCopies book + Z.of_nat (length (loansOf l title)).
Proof.
  induction ops as [|o ops IH]; intros l title book Hinv Hbook.
  - exists book. split; [done|]. split; [|done].
    by destruct (Hinv _ _ Hbook).
  - simpl.
    destruct (step_holdings l o title book Hinv Hbook) as (mid & Hmid & Hsum).
    destruct (IH (step l o).1 title mid (step_ledgerFits l o Hinv) Hmid)
      as (book' & Hbook' & Hlow & Hsum').
    exists book'. split; [done|]. split; [done|]. lia.
Qed.

(** X6.  Copies are neither lost nor made.  From a store in which every
    count is non-negative and fits an [int] together with the loans of its
    title, after any sequence of operations each title of the catalog
    still has a non-negative count, and its count plus the number of its
    loans is what it was at the start. *)
Theorem holdings_conserved (ops : list Op) (l : Library) (title : string)
    (book : BookDetail) :
  ledgerFits l ->
  Books l !! title = Some book ->
  exists book',
    Books (run l ops) !! title = Some book'
    /\ 0 <= AvailableCopies book'
    /\ AvailableCopies book'
       + Z.of_nat (length (loansOf (run l ops) title))
       = AvailableCopies book + Z.of_nat (length (loansOf l title))
    /\ Z.of_nat (length (loansOf (run l ops) title))
       <= AvailableCopies book + Z.of_nat (length (loansOf l title)).
Proof.
  intros Hinv Hbook.
  destruct (run_holdings ops l title book Hinv Hbook)
    as (book' & Hbook' & Hlow & Hsum).
  exists book'. repeat split; try done. lia.
Qed.

Lemma holdings_conserved_witness :
  exists book',
    Books (run NewLibrary
             [ OpBorrow sampleDay "Go Programming" "John";
               OpBorrow sampleDay "Go Programming" "Alice";
               OpExtend "Go Programming" "John";
               OpReturn "Go Programming" "John" ]) !! "Go Programming"
    = Some book'
    /\ 0 <= AvailableCopies book'
    /\ AvailableCopies book'
       + Z.of_nat (length (loansOf
                             (run NewLibrary
                                [ OpBorrow sampleDay "Go Programming" "John";
                                  OpBorrow sampleDay "Go Programming" "Alice";
                                  OpExtend "Go Programming" "John";
                                  OpReturn "Go Programming" "John" ])
                             "Go Programming"))
       = 3 + Z.of_nat (length (loansOf NewLibrary "Go Programming"))
    /\ Z.of_nat (length (loansOf
                           (run NewLibrary
                              [ OpBorrow sampleDay "Go Programming" "John";
                                OpBorrow sampleDay "Go Programming" "Alice";
                                OpExtend "Go Programming" "John";
                                OpReturn "Go Programming" "John" ])
                           "Go Programming"))
       <= 3 + Z.of_nat (length (loansOf NewLibrary "Go Programming")).
Proof.
  apply (holdings_conserved _ NewLibrary "Go Programming"
           {| Title := "Go Programming"; AvailableCopies := 3 |}).
  - unfold ledgerFits, NewLibrary. simpl.
    repeat (apply map_Forall_insert_2; [vm_compute; split; discriminate|]).
    apply map_Forall_empty.
  - vm_compute. reflexivity.
Defined.

(** X7.  A queue of borrowers on one title: with [n] copies available,
    the first [n] requests are answered 201 with their loan, every later
    one 409 "No copies available"; the title's loans grow by exactly the
    loans of the served requests, in order of arrival, and its count drops
    by their number, never below zero.  The same borrower may appear, and
    be served, more than once. *)
Theorem borrow_until_sold_out (requests : list (Time * string)) :
  forall (l : Library) (title : string) (book : BookDetail),
    Books l !! title = Some book ->
    0 <= AvailableCopies book <= maxInt ->
    let served := take (Z.to_nat (AvailableCopies book)) requests in
    (borrowAll l title requests).2
    = (map (fun q => {| Status := StatusCreated;
                        Payload := JsonLoan (newLoan title q) |}) served
       ++ replicate (length requests - length served) errNoCopiesAvailable)%list
    /\ loansOf (borrowAll l title requests).1 title
       = (loansOf l title ++ map (newLoan title) served)%list
    /\ exists book',
         Books (borrowAll l title requests).1 !! title = Some book'
         /\ Title book' = Title book
         /\ AvailableCopies book'
            = AvailableCopies book - Z.of_nat (length served).
Proof.
  induction requests as [|[now borrower] rest IH]; intros l title book Hbook Hrange.
  - simpl. rewrite take_nil. simpl. rewrite app_nil_r.
    split; [done|]. split; [done|]. exists book. split; [done|].
    split; [done | lia].
  - simpl.
    destruct (decide (AvailableCopies book = 0)) as [Hzero | Hpos].
    + assert (Hstay : Borrow l now title borrower = (l, errNoCopiesAvailable)).
      { unfold Borrow. by rewrite Hbook, Hzero. }
      rewrite Hstay. simpl.
      destruct (IH l title book Hbook Hrange) as (Hresp & Hloans & Hcount).
      rewrite Hzero in *. simpl in *.
      rewrite Hresp, Hloans. rewrite Nat.sub_0_r.
      split; [done|]. split; [done|]. exact Hcount.
    + assert (Hp : 0 < AvailableCopies book) by lia.
      assert (Hint : isInt (AvailableCopies book))
        by (unfold isInt, minInt, maxInt in *; lia).
      rewrite (Borrow_available l now title borrower book Hbook Hp Hint).
      simpl.
      set (book1 := {| Title := Title book;
                       AvailableCopies := AvailableCopies book - 1 |}).
      set (loan := {| BookTitle := title; NameOfBorrower := borrower;
                      LoanDate := now; ReturnDate := AddDays now 28 |}).
      set (l1 := {| Books := <[title := book1]> (Books l);
                    Loans := <[title := (loansOf l title ++ [loan])%list]>
                             (Loans l) |}).
      assert (Hbook1 : Books l1 !! title = Some book1) by apply lookup_insert_eq.
      assert (Hrange1 : 0 <= AvailableCopies book1 <= maxInt) by (simpl; lia).
      destruct (IH l1 title book1 Hbook1 Hrange1)
        as (Hresp & Hloans & (book' & Hbook' & Htitle' & Hcount')).
      assert (Hn : Z.to_nat (AvailableCopies book)
                   = S (Z.to_nat (AvailableCopies book1))) by (simpl; lia).
      rewrite Hn. simpl. rewrite Hresp, Hloans.
      assert (Hl1 : loansOf l1 title = (loansOf l title ++ [loan])%list).
      { unfold loansOf at 1. simpl. by rewrite lookup_insert_eq. }
      rewrite Hl1. split; [done|]. split.
      * by rewrite <- app_assoc.
      * exists book'. split; [done|]. split; [done|].
        rewrite Hcount'. simpl. lia.
Qed.

Lemma borrow_until_sold_out_witness :
  (borrowAll NewLibrary "Clean Code"
     [ (sampleDay, "Ann"); (sampleDay, "Ann"); (AddDays sampleDay 1, "Ben") ]).2
  = [ {| Status := StatusCreated;
         Payload := JsonLoan (newLoan "Clean Code" (sampleDay, "Ann")) |};
      {| Status := StatusCreated;
         Payload := JsonLoan (newLoan "Clean Code" (sampleDay, "Ann")) |};
      errNoCopiesAvailable ].
Proof.
  refine (proj1 (borrow_until_sold_out
                   [ (sampleDay, "Ann"); (sampleDay, "Ann");
                     (AddDays sampleDay 1, "Ben") ]
                   NewLibrary "Clean Code"
                   {| Title := "Clean Code"; AvailableCopies := 2 |} _ _)).
  - vm_compute. reflexivity.
  - simpl. vm_compute. split; discriminate.
Defined.

(** ** Where a stored loan comes from *)

Lemma step_loan_origin (l : Library) (o : Op) (key : string)
    (loans' : list LoanDetail) (loan' : LoanDetail) :
  Loans (step l o).1 !! key = Some loans' ->
  loan' ∈ loans' ->
  (exists loans, Loans l !! key = Some loans /\ loan' ∈ loans)
  \/ (exists now borrower,
        o = OpBorrow now key borrower
        /\ loan' = newLoan key (now, borrower))
  \/ (exists borrower loans loan,
        o = OpExtend key borrower
        /\ Loans l !! key = Some loans /\ loan ∈ loans
        /\ loan' = extended loan).
Proof.
  intros Hkey Hin.
  destruct o as [t | now t borrower | t borrower | t borrower]; simpl in Hkey.
  - unfold Lookup in Hkey. destruct (Books l !! t); left; eauto.
  - destruct (Borrow_cases l now t borrower)
      as [(_ & Heq) | [(? & _ & _ & Heq) | (book & _ & _ & Heq)]];
      rewrite Heq in Hkey; simpl in Hkey; [left; eauto | left; eauto |].
    destruct (decide (key = t)) as [->|Hne].
    + rewrite lookup_insert_eq in Hkey. injection Hkey as <-.
      apply elem_of_app in Hin as [Hold | Hnew].
      * left. unfold loansOf in Hold.
        destruct (Loans l !! t) as [loans|]; simpl in Hold; [eauto|].
        by apply elem_of_nil in Hold.
      * right. left. apply list_elem_of_singleton in Hnew. eauto.
    + rewrite lookup_insert_ne in Hkey by done. left. eauto.
  - destruct (Extend_cases l t borrower)
      as [(_ & Heq) | [(? & _ & _ & Heq) | (loans & i & loan & Hloans & Hfm & Heq)]];
      rewrite Heq in Hkey; simpl in Hkey; [left; eauto | left; eauto |].
    destruct (decide (key = t)) as [->|Hne].
    + rewrite lookup_insert_eq in Hkey. injection Hkey as <-.
      apply list_elem_of_lookup in Hin as [j Hj].
      apply list_lookup_insert_Some in Hj as [(-> & <- & _) | (_ & Hj)].
      * right. right. exists borrower, loans, loan.
        destruct Hfm as (Hi & _). repeat split; try done.
        apply list_elem_of_lookup. eauto.
      * left. exists loans. split; [done|]. apply list_elem_of_lookup. eauto.
    + rewrite lookup_insert_ne in Hkey by done. left. eauto.
  - destruct (Return_cases l t borrower)
      as [(_ & Heq)
         | [(? & _ & _ & Heq)
           | [(? & ? & _ & _ & _ & Heq)
             | (loans & book & i & loan & lastLoan
                & Hloans & _ & _ & Hlast & Heq)]]];
      rewrite Heq in Hkey; simpl in Hkey;
      [left; eauto | left; eauto | left; eauto |].
    destruct (decide (key = t)) as [->|Hne].
    + rewrite lookup_insert_eq in Hkey. injection Hkey as <-.
      left. exists loans. split; [done|].
      apply elem_of_take in Hin as (j & Hj & _).
      apply list_lookup_insert_Some in Hj as [(_ & <- & _) | (_ & Hj)];
        apply list_elem_of_lookup; eauto.
    + rewrite lookup_insert_ne in Hkey by done. left. eauto.
Qed.









(** ** What validation buys *)

Lemma serve_step (l : Library) (c : Call) :
  (serve l c).1 = l
  \/ exists o,
       serve l c = step l o
       /\ match o with
          | OpLookup title => title <> ""
          | OpBorrow _ title borrower
          | OpExtend title borrower
          | OpReturn title borrower => title <> "" /\ borrower <> ""
          end.
Proof.
  destruct c as [r | now r | r | r]; simpl.
  - unfold getBookHandler.
    destruct (negb _); [by left|].
    destruct (String.eqb (QueryTitle r) "") eqn:Ht; [by left|].
    right. exists (OpLookup (QueryTitle r)). split; [done|].
    by apply String.eqb_neq.
  - unfold borrowBookHandler.
    destruct (postHandler_cases l r (Borrow l now))
      as [(msg & code & -> & _) | (t & b & Ht & Hb & _ & ->)]; [by left|].
    right. by exists (OpBorrow now t b).
  - unfold extendLoanHandler.
    destruct (postHandler_cases l r (Extend l))
      as [(msg & code & -> & _) | (t & b & Ht & Hb & _ & ->)]; [by left|].
    right. by exists (OpExtend t b).
  - unfold returnBookHandler.
    destruct (postHandler_cases l r (Return l))
      as [(msg & code & -> & _) | (t & b & Ht & Hb & _ & ->)]; [by left|].
    right. by exists (OpReturn t b).
Qed.

(** Whatever the handlers do to the store, the four operations do. *)
Lemma serveAll_run (calls : list Call) :
  forall l, exists ops, serveAll l calls = run l ops.
Proof.
  induction calls as [|c calls IH]; intros l; [by exists []|].
  simpl. destruct (serve_step l c) as [-> | (o & -> & _)].
  - apply IH.
  - destruct (IH (step l o).1) as [ops Hops]. by exists (o :: ops).
Qed.

Lemma serve_loansNamed (l : Library) (c : Call) :
  loansNamed l -> loansNamed (serve l c).1.
Proof.
  intros Hinv. destruct (serve_step l c) as [-> | (o & -> & Hnamed)]; [done|].
  intros key loans' loan' Hkey Hin.
  destruct (step_loan_origin l o key loans' loan' Hkey Hin)
    as [(loans & Hloans & Hold)
       | [(now & borrower & -> & ->)
         | (borrower & loans & loan & _ & Hloans & Hold & ->)]].
  - by apply (Hinv key loans).
  - done.
  - by apply (Hinv key loans loan).
Qed.

(** X9.  The handlers' validation keeps empty names out of the loan
    lists: if no loan is filed under the empty title or for the empty
    borrower name, none is after any sequence of requests, whatever their
    methods, bodies and fields. *)
Theorem served_loans_are_named (calls : list Call) :
  forall l : Library, loansNamed l -> loansNamed (serveAll l calls).
Proof.
  induction calls as [|c calls IH]; intros l Hinv; [done|].
  simpl. apply IH. by apply serve_loansNamed.
Qed.

Lemma served_loans_are_named_witness :
  loansNamed
    (serveAll NewLibrary
       [ CallBorrow sampleDay
           {| Method := MethodPost; QueryTitle := "";
              DecodedBody := Some {| request_Title := "Clean Code";
                                     request_Borrower := "" |} |};
         CallBorrow sampleDay
           {| Method := MethodPost; QueryTitle := "";
              DecodedBody := Some {| request_Title := "Clean Code";
                                     request_Borrower := "Ann" |} |} ]).
Proof.
  apply (served_loans_are_named _ NewLibrary).
  intros key loans loan Hkey. vm_compute in Hkey. discriminate Hkey.
Defined.

(** ** Books stay under their titles *)

Lemma step_booksKeyed (l : Library) (o : Op) :
  booksKeyed l -> booksKeyed (step l o).1.
Proof.
  intros Hinv.
  destruct o as [t | now t borrower | t borrower | t borrower]; simpl.
  - unfold Lookup. by destruct (Books l !! t).
  - destruct (Borrow_Books l now t borrower)
      as [-> | (book & Hbook & _ & Hbooks)]; [done|].
    intros key found Hfound. rewrite Hbooks in Hfound.
    apply lookup_insert_Some in Hfound as [(<- & <-) | (_ & Hfound)];
      [simpl; by apply (Hinv _ _ Hbook) | by apply Hinv].
  - intros key found. rewrite Extend_Books. apply Hinv.
  - destruct (Return_Books l t borrower) as [-> | (book & Hbook & Hbooks)];
      [done|].
    intros key found Hfound. rewrite Hbooks in Hfound.
    apply lookup_insert_Some in Hfound as [(<- & <-) | (_ & Hfound)];
      [simpl; by apply (Hinv _ _ Hbook) | by apply Hinv].
Qed.

(** X10.  If every book is filed under its own title, it still is after
    any sequence of operations, and a successful [Lookup] then answers
    with a record whose title is the title asked for. *)
Theorem books_stay_keyed (ops : list Op) :
  forall l : Library,
    booksKeyed l ->
    booksKeyed (run l ops)
    /\ forall title book,
         (Lookup (run l ops) title).2
         = {| Status := StatusOK; Payload := JsonBook book |} ->
         Title book = title.
Proof.
  induction ops as [|o ops IH]; intros l Hinv.
  - split; [done|]. intros title book. simpl. unfold Lookup.
    destruct (Books l !! title) as [found|] eqn:Hfound; simpl.
    + intros Heq. apply (f_equal Payload) in Heq. simpl in Heq.
      injection Heq as Heq. subst. by apply Hinv.
    + intros Herr. apply (f_equal Payload) in Herr. simpl in Herr.
      discriminate Herr.
  - simpl. apply IH. by apply step_booksKeyed.
Qed.

Lemma books_stay_keyed_witness :
  booksKeyed (run NewLibrary [ OpBorrow sampleDay "Clean Code" "Ann";
                               OpReturn "Clean Code" "Ann" ]).
Proof.
  refine (proj1 (books_stay_keyed _ NewLibrary _)).
  intros key book Hbook. unfold NewLibrary in Hbook. simpl in Hbook.
  apply lookup_insert_Some in Hbook as [(<- & <-) | (_ & Hbook)]; [reflexivity|].
  apply lookup_insert_Some in Hbook as [(<- & <-) | (_ & Hbook)]; [reflexivity|].
  discriminate Hbook.
Defined.

(** ** Whose loan a return removes *)

Lemma borrowerCount_delete (borrower : string) (loans : list LoanDetail)
    (i : nat) (loan : LoanDetail) :
  loans !! i = Some loan ->
  borrowerCount borrower loans
  = (borrowerCount borrower (delete i loans)
     + if decide (NameOfBorrower loan = borrower) then 1 else 0)%nat.
Proof.
  intros Hi. unfold borrowerCount.
  rewrite <- (take_drop_middle loans i loan Hi) at 1.
  rewrite delete_take_drop, !filter_app, !length_app.
  destruct (decide (NameOfBorrower loan = borrower)) as [Heq|Hne].
  - rewrite filter_cons_True by done. simpl. lia.
  - rewrite filter_cons_False by done. lia.
Qed.

Lemma borrowerCount_Permutation (borrower : string) (xs ys : list LoanDetail) :
  xs ≡ₚ ys -> borrowerCount borrower xs = borrowerCount borrower ys.
Proof. intros Hperm. unfold borrowerCount. by rewrite Hperm. Qed.

(** X11.  A successful [Return] takes one loan away from the borrower
    who returns and none from anybody else: among the title's loans, the
    number carrying the borrower's name drops by exactly one, the number
    carrying any other name is unchanged, and the list is one shorter. *)
Theorem Return_borrower_counts (l : Library) (title borrower : string) :
  Status (Return l title borrower).2 = StatusOK ->
  S (borrowerCount borrower (loansOf (Return l title borrower).1 title))
  = borrowerCount borrower (loansOf l title)
  /\ (forall other,
        other <> borrower ->
        borrowerCount other (loansOf (Return l title borrower).1 title)
        = borrowerCount other (loansOf l title))
  /\ S (length (loansOf (Return l title borrower).1 title))
     = length (loansOf l title).
Proof.
  destruct (Return_cases l title borrower)
    as [(_ & ->)
       | [(? & _ & _ & ->)
         | [(? & ? & _ & _ & _ & ->)
           | (loans & book & i & loan & lastLoan
              & Hloans & Hbook & Hfm & Hlast & ->)]]];
    simpl; [done | done | done |]. intros _.
  pose proof (firstMatch_lt _ _ _ _ Hfm) as Hlt.
  destruct Hfm as (Hi & Hname & _).
  rewrite loansOf_insert. unfold loansOf. rewrite Hloans. simpl.
  pose proof (swap_truncate_delete loans i lastLoan Hlt Hlast) as Hperm.
  split; [|split].
  - rewrite (borrowerCount_Permutation _ _ _ Hperm).
    rewrite (borrowerCount_delete borrower loans i loan Hi).
    rewrite decide_True by done. lia.
  - intros other Hne.
    rewrite (borrowerCount_Permutation _ _ _ Hperm).
    rewrite (borrowerCount_delete other loans i loan Hi).
    rewrite decide_False by congruence. lia.
  - rewrite length_take, length_insert. lia.
Qed.

Lemma Return_borrower_counts_witness :
  S (borrowerCount "John"
       (loansOf (Return sampleLibrary "Go Programming" "John").1
                "Go Programming"))
  = borrowerCount "John" (loansOf sampleLibrary "Go Programming").
Proof.
  refine (proj1 (Return_borrower_counts sampleLibrary "Go Programming" "John" _)).
  vm_compute. reflexivity.
Defined.

(** ** Operations in sequence *)

Lemma firstMatch_extended (borrower : string) (loans : list LoanDetail)
    (i : nat) (loan : LoanDetail) :
  firstMatch borrower loans i loan ->
  firstMatch borrower (<[i := extended loan]> loans) i (extended loan).
Proof.
  intros Hfm. pose proof (firstMatch_lt _ _ _ _ Hfm) as Hlt.
  destruct Hfm as (Hi & Hname & Hbefore). split; [|split].
  - by apply list_lookup_insert_eq.
  - done.
  - intros j other Hj Hl. rewrite list_lookup_insert_ne in Hl by lia.
    by apply (Hbefore j).
Qed.

Lemma firstMatch_app_l (borrower : string) (loans more : list LoanDetail)
    (i : nat) (loan : LoanDetail) :
  firstMatch borrower loans i loan ->
  firstMatch borrower (loans ++ more)%list i loan.
Proof.
  intros Hfm. pose proof (firstMatch_lt _ _ _ _ Hfm) as Hlt.
  destruct Hfm as (Hi & Hname & Hbefore). split; [|split].
  - by rewrite lookup_app_l.
  - done.
  - intros j other Hj Hl. rewrite lookup_app_l in Hl by lia.
    by apply (Hbefore j).
Qed.

Lemma firstMatch_app_r (borrower : string) (loans : list LoanDetail)
    (new : LoanDetail) :
  noMatch borrower loans ->
  NameOfBorrower new = borrower ->
  firstMatch borrower (loans ++ [new])%list (length loans) new.
Proof.
  intros Hno Hname. split; [|split].
  - rewrite lookup_app_r by lia. by rewrite Nat.sub_diag.
  - done.
  - intros j other Hj Hl. rewrite lookup_app_l in Hl by lia.
    apply Hno. apply list_elem_of_lookup. eauto.
Qed.

(** X12.  [Extend] right after [Borrow], same title and borrower.  If
    the borrower held no loan of the title before, the loan just made is
    the one extended: it is then due at what [AddDate(0, 0, 21)] makes of
    its first due date, which is 49 times 24 hours after it was made when
    the location has a single offset.  If the borrower already held one,
    the earliest of those is extended instead and the loan just made
    keeps its due date. *)
Theorem Borrow_then_Extend (l : Library) (now : Time)
    (title borrower : string) (book : BookDetail) :
  Books l !! title = Some book ->
  0 < AvailableCopies book ->
  isInt (AvailableCopies book) ->
  let made := newLoan title (now, borrower) in
  let l1 := (Borrow l now title borrower).1 in
  (noMatch borrower (loansOf l title) ->
     (Extend l1 title borrower).2
     = {| Status := StatusOK; Payload := JsonLoan (postponed made 21) |}
     /\ ReturnDate (postponed made 21) = AddDays (AddDays now 28) 21
     /\ (fixedOffset (location now) ->
         daysLater 49 now (ReturnDate (postponed made 21)))
     /\ loansOf (Extend l1 title borrower).1 title
        = (loansOf l title ++ [postponed made 21])%list)
  /\ (forall i old,
        firstMatch borrower (loansOf l title) i old ->
        (Extend l1 title borrower).2
        = {| Status := StatusOK; Payload := JsonLoan (postponed old 21) |}
        /\ loansOf (Extend l1 title borrower).1 title
           = (<[i := postponed old 21]> (loansOf l title) ++ [made])%list).
Proof.
  intros Hbook Hpos Hint made l1. subst l1.
  rewrite (Borrow_available l now title borrower book Hbook Hpos Hint).
  simpl. fold (newLoan title (now, borrower)). fold made.
  set (l1 := {| Books := _; Loans := _ |}).
  assert (Hloans1 : Loans l1 !! title = Some (loansOf l title ++ [made])%list)
    by apply lookup_insert_eq.
  split.
  - intros Hno.
    pose proof (firstMatch_app_r borrower (loansOf l title) made Hno eq_refl)
      as Hfm.
    rewrite (Extend_found l1 title borrower _ _ _ Hloans1 Hfm). simpl.
    split; [done|]. split; [done|]. split.
    + intros Hfixed. unfold daysLater.
      destruct (AddDays_fixed now 28 Hfixed) as [H28 _].
      destruct (AddDays_fixed (AddDays now 28) 21 Hfixed) as [H21 _].
      rewrite H21, H28. lia.
    + rewrite loansOf_insert.
      rewrite insert_app_r_alt by lia. by rewrite Nat.sub_diag.
  - intros i old Hfm.
    pose proof (firstMatch_lt _ _ _ _ Hfm) as Hlt.
    pose proof (firstMatch_app_l borrower _ [made] i old Hfm) as Hfm1.
    rewrite (Extend_found l1 title borrower _ _ _ Hloans1 Hfm1). simpl.
    split; [done|].
    rewrite loansOf_insert. by rewrite insert_app_l.
Qed.

Lemma Borrow_then_Extend_witness :
  (Extend (Borrow NewLibrary sampleDay "Go Programming" "John").1
          "Go Programming" "John").2
  = {| Status := StatusOK;
       Payload := JsonLoan
                    (postponed (newLoan "Go Programming" (sampleDay, "John")) 21) |}.
Proof.
  refine (proj1 (proj1 (Borrow_then_Extend NewLibrary sampleDay
                          "Go Programming" "John"
                          {| Title := "Go Programming"; AvailableCopies := 3 |}
                          _ _ _) _)).
  - vm_compute. reflexivity.
  - simpl. lia.
  - unfold isInt. simpl. vm_compute. split; discriminate.
  - intros other Hin. vm_compute in Hin. by apply elem_of_nil in Hin.
Defined.





(** X14.  An extension leaves nothing behind once the book is returned:
    when [Extend] succeeds on a title of the catalog, [Return] for the
    same title and borrower removes the very loan that was extended, and
    the store and the answer are those of [Return] without the
    extension. *)
Theorem Extend_then_Return (l : Library) (title borrower : string) :
  Status (Extend l title borrower).2 = StatusOK ->
  is_Some (Books l !! title) ->
  Return (Extend l title borrower).1 title borrower
  = Return l title borrower.
Proof.
  destruct (Extend_cases l title borrower)
    as [(_ & ->) | [(? & _ & _ & ->)
                   | (loans & i & loan & Hloans & Hfm & ->)]];
    simpl; [done | done |]. intros _ [book Hbook].
  pose proof (firstMatch_lt _ _ _ _ Hfm) as Hlt.
  set (l1 := {| Books := Books l;
                Loans := <[title := <[i := extended loan]> loans]> (Loans l) |}).
  destruct (Return_found l title borrower loans book i loan Hloans Hbook Hfm)
    as (lastLoan & Hlast & ->).
  destruct (Return_found l1 title borrower (<[i := extended loan]> loans) book
              i (extended loan))
    as (lastLoan1 & Hlast1 & ->);
    [apply lookup_insert_eq | done | by apply firstMatch_extended |].
  simpl. rewrite insert_insert_eq, length_insert, list_insert_insert_eq.
  rewrite length_insert in Hlast1.
  do 3 f_equal.
  destruct (decide (i = (length loans - 1)%nat)) as [->|Hne].
  - by rewrite !take_insert_ge by lia.
  - rewrite list_lookup_insert_ne in Hlast1 by done. congruence.
Qed.

Lemma Extend_then_Return_witness :
  Return (Extend sampleLibrary "Go Programming" "Carol").1
         "Go Programming" "Carol"
  = Return sampleLibrary "Go Programming" "Carol".
Proof.
  apply (Extend_then_Return sampleLibrary "Go Programming" "Carol").
  - vm_compute. reflexivity.
  - exists {| Title := "Go Programming"; AvailableCopies := 0 |}.
    vm_compute. reflexivity.
Defined.

(** ** The server from start-up *)

Lemma run_dom_Books (ops : list Op) :
  forall l, dom (Books (run l ops)) = dom (Books l).
Proof.
  induction ops as [|o ops IH]; intros l; [done|].
  simpl. rewrite IH. apply step_dom_Books.
Qed.

Lemma step_loans_in_catalog (l : Library) (o : Op) :
  (forall key, is_Some (Loans l !! key) -> is_Some (Books l !! key)) ->
  forall key, is_Some (Loans (step l o).1 !! key) ->
              is_Some (Books (step l o).1 !! key).
Proof.
  intros Hinv key Hkey.
  apply (elem_of_dom (D := gset string)). rewrite step_dom_Books.
  apply (elem_of_dom (D := gset string)).
  destruct o as [t | now t borrower | t borrower | t borrower]; simpl in Hkey.
  - unfold Lookup in Hkey. destruct (Books l !! t); by apply Hinv.
  - destruct (Borrow_cases l now t borrower)
      as [(_ & Heq) | [(? & _ & _ & Heq) | (book & Hbook & _ & Heq)]];
      rewrite Heq in Hkey; simpl in Hkey; [by apply Hinv | by apply Hinv |].
    destruct (decide (key = t)) as [->|Hne]; [by exists book|].
    rewrite lookup_insert_ne in Hkey by done. by apply Hinv.
  - destruct (Extend_cases l t borrower)
      as [(_ & Heq) | [(? & _ & _ & Heq) | (loans & ? & ? & Hloans & _ & Heq)]];
      rewrite Heq in Hkey; simpl in Hkey; [by apply Hinv | by apply Hinv |].
    destruct (decide (key = t)) as [->|Hne]; [apply Hinv; by exists loans|].
    rewrite lookup_insert_ne in Hkey by done. by apply Hinv.
  - destruct (Return_cases l t borrower)
      as [(_ & Heq)
         | [(? & _ & _ & Heq)
           | [(? & ? & _ & _ & _ & Heq)
             | (loans & ? & ? & ? & ? & Hloans & _ & _ & _ & Heq)]]];
      rewrite Heq in Hkey; simpl in Hkey;
      [by apply Hinv | by apply Hinv | by apply Hinv |].
    destruct (decide (key = t)) as [->|Hne]; [apply Hinv; by exists loans|].
    rewrite lookup_insert_ne in Hkey by done. by apply Hinv.
Qed.

Lemma run_loans_in_catalog (ops : list Op) :
  forall l,
    (forall key, is_Some (Loans l !! key) -> is_Some (Books l !! key)) ->
    forall key, is_Some (Loans (run l ops) !! key) ->
                is_Some (Books (run l ops) !! key).
Proof.
  induction ops as [|o ops IH]; intros l Hinv; [done|].
  simpl. apply IH. by apply step_loans_in_catalog.
Qed.

(** X15.  The running server.  Whatever requests have been served since
    [NewLibrary], the catalog holds exactly "Go Programming" and "Clean
    Code"; the first has between 0 and 3 copies available and its copies
    and loans add up to 3, the second between 0 and 2 and they add up to
    2; and no loan list exists under any other title. *)
Theorem server_keeps_its_books (calls : list Call) :
  (exists go clean,
      Books (serveAll NewLibrary calls) !! "Go Programming" = Some go
      /\ Books (serveAll NewLibrary calls) !! "Clean Code" = Some clean
      /\ 0 <= AvailableCopies go <= 3
      /\ AvailableCopies go
         + Z.of_nat (length (loansOf (serveAll NewLibrary calls)
                                     "Go Programming")) = 3
      /\ 0 <= AvailableCopies clean <= 2
      /\ AvailableCopies clean
         + Z.of_nat (length (loansOf (serveAll NewLibrary calls)
                                     "Clean Code")) = 2)
  /\ (forall title,
        title <> "Go Programming" -> title <> "Clean Code" ->
        Books (serveAll NewLibrary calls) !! title = None
        /\ Loans (serveAll NewLibrary calls) !! title = None).
Proof.
  destruct (serveAll_run calls NewLibrary) as [ops ->].
  assert (Hgo : Books NewLibrary !! "Go Programming"
                = Some {| Title := "Go Programming"; AvailableCopies := 3 |})
    by (vm_compute; reflexivity).
  assert (Hclean : Books NewLibrary !! "Clean Code"
                   = Some {| Title := "Clean Code"; AvailableCopies := 2 |})
    by (vm_compute; reflexivity).
  split.
  - destruct (run_holdings ops _ _ _ NewLibrary_ledgerFits Hgo)
      as (go & Hgo' & Hgolow & Hgosum).
    destruct (run_holdings ops _ _ _ NewLibrary_ledgerFits Hclean)
      as (clean & Hclean' & Hcleanlow & Hcleansum).
    exists go, clean. simpl in Hgosum, Hcleansum.
    change (length (loansOf NewLibrary "Go Programming")) with 0%nat in Hgosum.
    change (length (loansOf NewLibrary "Clean Code")) with 0%nat in Hcleansum.
    repeat split; try done; lia.
  - intros title Hne1 Hne2.
    assert (Hnone : Books (run NewLibrary ops) !! title = None).
    { apply (not_elem_of_dom (D := gset string)). rewrite run_dom_Books.
      apply (not_elem_of_dom (D := gset string)).
      unfold NewLibrary. simpl. by rewrite !lookup_insert_ne. }
    split; [done|].
    destruct (Loans (run NewLibrary ops) !! title) as [loans|] eqn:Hloans;
      [|done].
    assert (Hsome : is_Some (Books (run NewLibrary ops) !! title)).
    { apply (run_loans_in_catalog ops NewLibrary); [|by rewrite Hloans].
      intros key [ls Hls]. vm_compute in Hls. discriminate Hls. }
    rewrite Hnone in Hsome. by destruct Hsome.
Qed.

(** ** Titles do not interfere *)

Lemma Library_eq (a b : Library) :
  Books a = Books b -> Loans a = Loans b -> a = b.
Proof. destruct a, b. simpl. by intros -> ->. Qed.

Lemma step_frame (l : Library) (o : Op) (other : string) :
  other <> opTitle o ->
  Books (step l o).1 !! other = Books l !! other
  /\ Loans (step l o).1 !! other = Loans l !! other.
Proof.
  intros Hne.
  destruct o as [t | now t borrower | t borrower | t borrower]; simpl in *.
  - unfold Lookup. by destruct (Books l !! t).
  - destruct (Borrow_state l now t borrower)
      as [-> | (? & ? & _ & _ & ->)]; [done|].
    simpl. by rewrite !lookup_insert_ne.
  - destruct (Extend_state l t borrower) as [-> | (? & ? & _ & _ & ->)]; [done|].
    simpl. by rewrite lookup_insert_ne.
  - destruct (Return_state l t borrower)
      as [-> | (? & ? & ? & _ & _ & _ & ->)]; [done|].
    simpl. by rewrite !lookup_insert_ne.
Qed.

Lemma step_own_title (l l' : Library) (o : Op) :
  Books l !! opTitle o = Books l' !! opTitle o ->
  Loans l !! opTitle o = Loans l' !! opTitle o ->
  (step l o).2 = (step l' o).2
  /\ Books (step l o).1 !! opTitle o = Books (step l' o).1 !! opTitle o
  /\ Loans (step l o).1 !! opTitle o = Loans (step l' o).1 !! opTitle o.
Proof.
  intros Hb Hl.
  destruct o as [t | now t borrower | t borrower | t borrower]; simpl in *.
  - unfold Lookup. rewrite <- Hb.
    destruct (Books l !! t) eqn:Hbook; simpl; repeat split; congruence.
  - unfold Borrow, loansOf. rewrite <- Hb, <- Hl.
    destruct (Books l !! t) as [book|] eqn:Hbook;
      [|simpl; repeat split; congruence].
    destruct (AvailableCopies book <=? 0);
      [simpl; repeat split; congruence|].
    simpl. by rewrite !lookup_insert_eq.
  - unfold Extend. rewrite <- Hl.
    destruct (Loans l !! t) as [loans|] eqn:Hloans;
      [|simpl; repeat split; congruence].
    destruct (extendLoop borrower loans 0 loans) as [[loans' e]|];
      [|simpl; repeat split; congruence].
    simpl. by rewrite !lookup_insert_eq.
  - unfold Return. rewrite <- Hb, <- Hl.
    destruct (Loans l !! t) as [loans|] eqn:Hloans;
      [|simpl; repeat split; congruence].
    destruct (Books l !! t) as [book|] eqn:Hbook;
      [|simpl; repeat split; congruence].
    destruct (scanLoanIndex borrower loans 0 =? -1);
      [simpl; repeat split; congruence|].
    destruct (loans !! (length loans - 1)%nat);
      [|simpl; repeat split; congruence].
    simpl. by rewrite !lookup_insert_eq.
Qed.

(** X16.  An operation sees and touches its own title only.  Its answer,
    and the book and loans it leaves under its title, are the same in any
    two stores that agree on that title's book and loans; and it leaves
    the book and the loans of every other title as they were. *)
Theorem operation_is_local (l l' : Library) (o : Op) :
  Books l !! opTitle o = Books l' !! opTitle o ->
  Loans l !! opTitle o = Loans l' !! opTitle o ->
  (step l o).2 = (step l' o).2
  /\ Books (step l o).1 !! opTitle o = Books (step l' o).1 !! opTitle o
  /\ Loans (step l o).1 !! opTitle o = Loans (step l' o).1 !! opTitle o
  /\ (forall other,
        other <> opTitle o ->
        Books (step l o).1 !! other = Books l !! other
        /\ Loans (step l o).1 !! other = Loans l !! other).
Proof.
  intros Hb Hl.
  destruct (step_own_title l l' o Hb Hl) as (Hresp & Hbook & Hloans).
  repeat split; try done; by apply step_frame.
Qed.

Lemma operation_is_local_witness :
  (step sampleLibrary (OpReturn "Go Programming" "John")).2
  = (step {| Books := <["Refactoring" :=
                          {| Title := "Refactoring"; AvailableCopies := 1 |}]>
                      (Books sampleLibrary);
             Loans := <["Clean Code" := []]> (Loans sampleLibrary) |}
          (OpReturn "Go Programming" "John")).2.
Proof.
  refine (proj1 (operation_is_local sampleLibrary _
                   (OpReturn "Go Programming" "John") _ _)).
  - vm_compute. reflexivity.
  - vm_compute. reflexivity.
Defined.

(** X17.  Operations on different titles commute: performed in either
    order they give the same two answers and the same final store. *)
Theorem different_titles_commute (l : Library) (o1 o2 : Op) :
  opTitle o1 <> opTitle o2 ->
  (step (step l o1).1 o2).2 = (step l o2).2
  /\ (step (step l o2).1 o1).2 = (step l o1).2
  /\ (step (step l o1).1 o2).1 = (step (step l o2).1 o1).1.
Proof.
  intros Hne.
  destruct (step_frame l o1 (opTitle o2)) as [Hb12 Hl12]; [done|].
  destruct (step_frame l o2 (opTitle o1)) as [Hb21 Hl21]; [done|].
  destruct (step_own_title (step l o1).1 l o2 Hb12 Hl12) as (Hr2 & Hbk2 & Hln2).
  destruct (step_own_title (step l o2).1 l o1 Hb21 Hl21) as (Hr1 & Hbk1 & Hln1).
  split; [done|]. split; [done|].
  apply Library_eq; apply map_eq; intros key.
  - destruct (decide (key = opTitle o1)) as [->|Hk1];
      [|destruct (decide (key = opTitle o2)) as [->|Hk2]].
    + rewrite Hbk1.
      by destruct (step_frame (step l o1).1 o2 (opTitle o1)) as [-> _].
    + rewrite Hbk2.
      by destruct (step_frame (step l o2).1 o1 (opTitle o2)) as [-> _].
    + destruct (step_frame (step l o1).1 o2 key) as [-> _]; [done|].
      destruct (step_frame (step l o2).1 o1 key) as [-> _]; [done|].
      destruct (step_frame l o1 key) as [-> _]; [done|].
      by destruct (step_frame l o2 key) as [-> _].
  - destruct (decide (key = opTitle o1)) as [->|Hk1];
      [|destruct (decide (key = opTitle o2)) as [->|Hk2]].
    + rewrite Hln1.
      by destruct (step_frame (step l o1).1 o2 (opTitle o1)) as [_ ->].
    + rewrite Hln2.
      by destruct (step_frame (step l o2).1 o1 (opTitle o2)) as [_ ->].
    + destruct (step_frame (step l o1).1 o2 key) as [_ ->]; [done|].
      destruct (step_frame (step l o2).1 o1 key) as [_ ->]; [done|].
      destruct (step_frame l o1 key) as [_ ->]; [done|].
      by destruct (step_frame l o2 key) as [_ ->].
Qed.

Lemma different_titles_commute_witness :
  (step (step NewLibrary (OpBorrow sampleDay "Go Programming" "John")).1
        (OpBorrow sampleDay "Clean Code" "Ann")).1
  = (step (step NewLibrary (OpBorrow sampleDay "Clean Code" "Ann")).1
          (OpBorrow sampleDay "Go Programming" "John")).1.
Proof.
  refine (proj2 (proj2 (different_titles_commute NewLibrary
                          (OpBorrow sampleDay "Go Programming" "John")
                          (OpBorrow sampleDay "Clean Code" "Ann") _))).
  simpl. discriminate.
Defined.

(** ** The tests of the repository

    The four tests, replayed on the handlers: the requests they send, the
    stores they seed, the checks they make. *)

Example TestGetBookHandler :
  (getBookHandler NewLibrary
     {| Method := "GET"; QueryTitle := "Go Programming"; DecodedBody := None |}).2
  = {| Status := StatusOK;
       Payload := JsonBook {| Title := "Go Programming";
                              AvailableCopies := 3 |} |}
  /\ Status (getBookHandler NewLibrary
               {| Method := "GET"; QueryTitle := "Nonexistent Book";
                  DecodedBody := None |}).2
     = StatusNotFound.
Proof. split; vm_compute; reflexivity. Qed.

Example TestBorrowBookHandler :
  exists l' loan,
    borrowBookHandler NewLibrary sampleDay
      {| Method := "POST"; QueryTitle := "";
         DecodedBody := Some {| request_Title := "Go Programming";
                                request_Borrower := "John Doe" |} |}
    = (l', {| Status := StatusCreated; Payload := JsonLoan loan |})
    /\ BookTitle loan = "Go Programming"
    /\ NameOfBorrower loan = "John Doe"
    /\ AvailableCopies <$> Books l' !! "Go Programming" = Some 2.
Proof. eexists _, _. repeat split; vm_compute; reflexivity. Qed.

Example TestExtendLoanHandler :
  let loan := {| BookTitle := "Clean Code"; NameOfBorrower := "Jane Smith";
                 LoanDate := sampleDay; ReturnDate := AddDays sampleDay 28 |} in
  let library :=
    {| Books := <["Clean Code" := {| Title := "Clean Code";
                                     AvailableCopies := 1 |}]>
                (Books NewLibrary);
       Loans := <["Clean Code" := [loan]]> (Loans NewLibrary) |} in
  exists extendedLoan,
    (extendLoanHandler library
       {| Method := "POST"; QueryTitle := "";
          DecodedBody := Some {| request_Title := "Clean Code";
                                 request_Borrower := "Jane Smith" |} |}).2
    = {| Status := StatusOK; Payload := JsonLoan extendedLoan |}
    /\ ReturnDate extendedLoan = AddDays (AddDays sampleDay 28) 21.
Proof. eexists. split; vm_compute; reflexivity. Qed.

Example TestReturnBookHandler :
  exists l',
    (returnBookHandler soldOutLibrary
       {| Method := "POST"; QueryTitle := "";
          DecodedBody := Some {| request_Title := "Design Patterns";
                                 request_Borrower := "Bob Johnson" |} |})
    = (l', {| Status := StatusOK;
              Payload := JsonMessage
                "Book 'Design Patterns' successfully returned by Bob Johnson" |})
    /\ AvailableCopies <$> Books l' !! "Design Patterns" = Some 1
    /\ length (loansOf l' "Design Patterns") = 0%nat.
Proof. eexists. repeat split; vm_compute; reflexivity. Qed.
